(** * Room query and remote-action gateway of the Colyseus monitor

    A shallow embedding of the monitor's API router ([getAPI] with its
    helpers [handleError], [applyRoomFilters] and [applySorting]) and the
    properties of its list, inspect and call endpoints.

    The router is TypeScript over untyped room objects ([any]), so the first
    part fixes the fragment of JavaScript values and operators the router
    uses.  Numbers are the integers (plus NaN): fractions, infinities and the
    rounding of doubles are outside the model.  Strings are byte strings, and
    members inherited from a prototype (methods) are not modelled: a property
    read sees own data properties, the length and the indices of strings and
    arrays. *)

From Stdlib Require Import List ZArith Lia Bool String Ascii.
From Stdlib Require Import Permutation Sorted DecimalString.
Import ListNotations.

Set Warnings "-register-all".

Open Scope string_scope.
Open Scope list_scope.
Open Scope Z_scope.

(* ================================================================== *)
(** ** JavaScript values *)

Module Js.

Inductive JsValue : Type :=
| JUndefined
| JNull
| JBool (b : bool)
| JNum (n : Z)
| JNaN
| JStr (s : string)
| JArr (elems : list JsValue)
| JObj (props : list (string * JsValue)).

(** Errors thrown by the operations below. *)
Inductive JsError : Type :=
| SyntaxError
| TypeError.

(** *** Text helpers *)

Definition string_of_Z (n : Z) : string :=
  NilZero.string_of_int (Z.to_int n).

Definition is_digit (c : ascii) : bool :=
  let n := nat_of_ascii c in (48 <=? n)%nat && (n <=? 57)%nat.

Definition digit_value (c : ascii) : Z :=
  Z.of_nat (nat_of_ascii c) - 48.

(** Value of the longest prefix of decimal digits, with the number of
    digits read ([acc] is the value read so far). *)
Fixpoint read_digits (s : string) (acc : Z) (count : nat) : Z * nat * string :=
  match s with
  | EmptyString => (acc, count, s)
  | String c rest =>
      if is_digit c
      then read_digits rest (10 * acc + digit_value c) (S count)
      else (acc, count, s)
  end.

Definition hex_value (c : ascii) : option Z :=
  let n := nat_of_ascii c in
  if (48 <=? n)%nat && (n <=? 57)%nat then Some (Z.of_nat n - 48)
  else if (65 <=? n)%nat && (n <=? 70)%nat then Some (Z.of_nat n - 55)
  else if (97 <=? n)%nat && (n <=? 102)%nat then Some (Z.of_nat n - 87)
  else None.

Fixpoint read_hex_digits (s : string) (acc : Z) (count : nat) : Z * nat :=
  match s with
  | EmptyString => (acc, count)
  | String c rest =>
      match hex_value c with
      | Some d => read_hex_digits rest (16 * acc + d) (S count)
      | None => (acc, count)
      end
  end.

(** White space skipped by [parseInt] and by the conversion of a string to
    a number: TAB, LF, VT, FF, CR and SPACE. *)
Definition is_space (c : ascii) : bool :=
  let n := nat_of_ascii c in
  ((9 <=? n)%nat && (n <=? 13)%nat) || (n =? 32)%nat.

Fixpoint skip_spaces (s : string) : string :=
  match s with
  | String c rest => if is_space c then skip_spaces rest else s
  | EmptyString => s
  end.

Fixpoint all_spaces (s : string) : bool :=
  match s with
  | String c rest => is_space c && all_spaces rest
  | EmptyString => true
  end.

(** [s.split(sep)] for a one-character separator: the empty string splits
    into one empty segment. *)
Fixpoint split_on (sep : ascii) (s : string) : list string :=
  match s with
  | EmptyString => [EmptyString]
  | String c rest =>
      if Ascii.eqb c sep then EmptyString :: split_on sep rest
      else match split_on sep rest with
           | seg :: segs => String c seg :: segs
           | [] => [String c EmptyString]
           end
  end.

Fixpoint drop (n : nat) (s : string) : string :=
  match n, s with
  | O, _ => s
  | S n', String _ rest => drop n' rest
  | S _, EmptyString => EmptyString
  end.

(** Expansion of the replacement text of [String.prototype.replace] for a
    string pattern (no capture groups): [$$], [$&], [$`] and [$'] are
    special, every other character stands for itself. *)
Fixpoint expand_replacement (repl matched before after : string) : string :=
  match repl with
  | String "$" (String "$" rest) =>
      String "$" (expand_replacement rest matched before after)
  | String "$" (String "&" rest) =>
      String.append matched (expand_replacement rest matched before after)
  | String "$" (String "`" rest) =>
      String.append before (expand_replacement rest matched before after)
  | String "$" (String "'" rest) =>
      String.append after (expand_replacement rest matched before after)
  | String c rest => String c (expand_replacement rest matched before after)
  | EmptyString => EmptyString
  end.

(** [s.replace(pat, repl)] for a string pattern: only the first occurrence
    is replaced ([before] is the text already passed, reversed). *)
Fixpoint replace_from (pat repl : string) (before_rev : string) (s : string)
  : string :=
  if String.prefix pat s
  then
    let after := drop (String.length pat) s in
    let before := string_of_list_ascii (rev (list_ascii_of_string before_rev)) in
    String.append (expand_replacement repl pat before after) after
  else
    match s with
    | EmptyString => EmptyString
    | String c rest => String c (replace_from pat repl (String c before_rev) rest)
    end.

Definition replace (s pat repl : string) : string :=
  replace_from pat repl EmptyString s.

(** *** Conversions *)

Definition truthy (v : JsValue) : bool :=
  match v with
  | JUndefined | JNull | JNaN => false
  | JBool b => b
  | JNum n => negb (n =? 0)
  | JStr s => negb (String.eqb s EmptyString)
  | JArr _ | JObj _ => true
  end.

(** [a || b] and [a && b] on values. *)
Definition or_else (a b : JsValue) : JsValue := if truthy a then a else b.
Definition and_then (a b : JsValue) : JsValue := if truthy a then b else a.

(** ToString; an array joins its elements with commas, an undefined or
    null element giving the empty text. *)
Fixpoint to_string (v : JsValue) : string :=
  match v with
  | JUndefined => "undefined"
  | JNull => "null"
  | JBool true => "true"
  | JBool false => "false"
  | JNum n => string_of_Z n
  | JNaN => "NaN"
  | JStr s => s
  | JArr elems =>
      String.concat ","
        (map (fun e =>
                match e with
                | JUndefined | JNull => EmptyString
                | _ => to_string e
                end) elems)
  | JObj _ => "[object Object]"
  end.

(** ToPrimitive: a plain object or an array has no primitive [valueOf], so
    its text is used. *)
Definition to_primitive (v : JsValue) : JsValue :=
  match v with
  | JArr _ | JObj _ => JStr (to_string v)
  | _ => v
  end.

(** StringToNumber on the integer fragment: optional white space around an
    optionally signed run of decimal digits; the blank string is 0 and any
    other text is NaN ([None]). *)
Definition string_to_number (s : string) : option Z :=
  let s := skip_spaces s in
  match s with
  | EmptyString => Some 0
  | String c rest =>
      let '(sign, body) :=
        if Ascii.eqb c "-" then (-1, rest)
        else if Ascii.eqb c "+" then (1, rest)
        else (1, s) in
      let '(n, count, tail) := read_digits body 0 O in
      match count with
      | O => None
      | S _ => if all_spaces tail then Some (sign * n) else None
      end
  end.

(** ToNumber; [None] is NaN. *)
Definition to_number (v : JsValue) : option Z :=
  match to_primitive v with
  | JUndefined | JNaN => None
  | JNull => Some 0
  | JBool b => Some (if b then 1 else 0)
  | JNum n => Some n
  | JStr s => string_to_number s
  | JArr _ | JObj _ => None
  end.

Definition of_number (n : option Z) : JsValue :=
  match n with
  | Some z => JNum z
  | None => JNaN
  end.

(** *** Operators *)

(** [a === b].  Two object or array values met by the router always come
    from different rooms or from a freshly parsed text, so they are
    different references and never identical; NaN is not identical to
    itself. *)
Definition strict_eq (a b : JsValue) : bool :=
  match a, b with
  | JUndefined, JUndefined => true
  | JNull, JNull => true
  | JBool x, JBool y => Bool.eqb x y
  | JNum x, JNum y => x =? y
  | JStr x, JStr y => String.eqb x y
  | _, _ => false
  end.

(** [a < b]: two strings compare by their characters, anything else by
    number, and a comparison with NaN is false. *)
Definition lt (a b : JsValue) : bool :=
  match to_primitive a, to_primitive b with
  | JStr x, JStr y => String.ltb x y
  | pa, pb =>
      match to_number pa, to_number pb with
      | Some x, Some y => x <? y
      | _, _ => false
      end
  end.

(** [a + b]: concatenation as soon as one side is a string, addition of
    numbers otherwise. *)
Definition add (a b : JsValue) : JsValue :=
  match to_primitive a, to_primitive b with
  | JStr x, pb => JStr (String.append x (to_string pb))
  | pa, JStr y => JStr (String.append (to_string pa) y)
  | pa, pb =>
      match to_number pa, to_number pb with
      | Some x, Some y => JNum (x + y)
      | _, _ => JNaN
      end
  end.

(** [a - b]. *)
Definition sub (a b : JsValue) : JsValue :=
  match to_number a, to_number b with
  | Some x, Some y => JNum (x - y)
  | _, _ => JNaN
  end.

(** *** Objects as property lists *)

Definition Obj : Type := list (string * JsValue).

Fixpoint obj_get (o : Obj) (key : string) : JsValue :=
  match o with
  | [] => JUndefined
  | (k, v) :: rest => if String.eqb k key then v else obj_get rest key
  end.

(** [o[key] = v]: an existing property keeps its place, a new one is added
    at the end. *)
Fixpoint obj_set (o : Obj) (key : string) (v : JsValue) : Obj :=
  match o with
  | [] => [(key, v)]
  | (k, w) :: rest =>
      if String.eqb k key then (k, v) :: rest
      else (k, w) :: obj_set rest key v
  end.

(** The index a property key denotes, when it is a canonical numeral. *)
Definition index_of_key (key : string) : option nat :=
  let '(n, count, tail) := read_digits key 0 O in
  match count, tail with
  | S _, EmptyString =>
      if String.eqb (string_of_Z n) key then Some (Z.to_nat n) else None
  | _, _ => None
  end.

(** [v[key]]; reading a property of undefined or null throws. *)
Definition get (v : JsValue) (key : string) : JsError + JsValue :=
  match v with
  | JUndefined | JNull => inl TypeError
  | JObj o => inr (obj_get o key)
  | JArr elems =>
      if String.eqb key "length" then inr (JNum (Z.of_nat (List.length elems)))
      else match index_of_key key with
           | Some i => inr (nth i elems JUndefined)
           | None => inr JUndefined
           end
  | JStr s =>
      if String.eqb key "length" then inr (JNum (Z.of_nat (String.length s)))
      else match index_of_key key with
           | Some i =>
               match String.get i s with
               | Some c => inr (JStr (String c EmptyString))
               | None => inr JUndefined
               end
           | None => inr JUndefined
           end
  | JBool _ | JNum _ | JNaN => inr JUndefined
  end.

(** [v?.[key]]. *)
Definition opt_get (v : JsValue) (key : string) : JsValue :=
  match get v key with
  | inl _ => JUndefined
  | inr w => w
  end.

(** [v[key] = w] in strict mode, seen through the serialisation of [v]:
    a named property set on an array is not serialised, and setting a
    property on a primitive, undefined or null throws. *)
Definition set (v : JsValue) (key : string) (w : JsValue) : JsError + JsValue :=
  match v with
  | JObj o => inr (JObj (obj_set o key w))
  | JArr elems => inr (JArr elems)
  | _ => inl TypeError
  end.

(** [Object.entries(v)]: own enumerable properties; undefined and null
    throw. *)
Definition entries (v : JsValue) : JsError + list (string * JsValue) :=
  match v with
  | JUndefined | JNull => inl TypeError
  | JObj o => inr o
  | JArr elems =>
      inr (combine (map (fun i => string_of_Z (Z.of_nat i))
                        (seq 0 (List.length elems))) elems)
  | JStr s =>
      inr (combine (map (fun i => string_of_Z (Z.of_nat i))
                        (seq 0 (String.length s)))
                   (map (fun c => JStr (String c EmptyString))
                        (list_ascii_of_string s)))
  | JBool _ | JNum _ | JNaN => inr []
  end.

(** [[...v]]: only arrays and strings are iterable. *)
Definition spread (v : JsValue) : JsError + list JsValue :=
  match v with
  | JArr elems => inr elems
  | JStr s => inr (map (fun c => JStr (String c EmptyString)) (list_ascii_of_string s))
  | _ => inl TypeError
  end.

(** [JSON.parse(JSON.stringify(v))] for a value inside an object or an
    array: undefined properties are dropped, undefined elements and NaN
    become null.  A property list may repeat a key, its first occurrence
    being the property; [dropped] keeps the later occurrences of a dropped
    key hidden. *)
Section CloneProps.

Variable clone : JsValue -> JsValue.

Fixpoint clone_props (dropped : list string) (ps : Obj) : Obj :=
  match ps with
  | [] => []
  | (k, w) :: rest =>
      if existsb (String.eqb k) dropped
      then clone_props dropped rest
      else
        match w with
        | JUndefined => clone_props (k :: dropped) rest
        | _ => (k, clone w) :: clone_props dropped rest
        end
  end.

End CloneProps.

Fixpoint json_clone (v : JsValue) : JsValue :=
  match v with
  | JUndefined | JNaN => JNull
  | JArr elems => JArr (map json_clone elems)
  | JObj o => JObj (clone_props json_clone [] o)
  | _ => v
  end.

Definition json_clone_obj (o : Obj) : Obj := clone_props json_clone [] o.

(** [parseInt(s)] without a radix; an absent parameter reads as the text
    [undefined].  [None] is NaN. *)
Definition parseInt (p : option string) : option Z :=
  match p with
  | None => None
  | Some s =>
      let s := skip_spaces s in
      let '(sign, body) :=
        match s with
        | String "-" rest => (-1, rest)
        | String "+" rest => (1, rest)
        | _ => (1, s)
        end in
      match body with
      | String "0" (String x rest) =>
          if Ascii.eqb x "x" || Ascii.eqb x "X"
          then
            let '(n, count) := read_hex_digits rest 0 O in
            match count with
            | O => None
            | S _ => Some (sign * n)
            end
          else
            let '(n, count, _) := read_digits body 0 O in
            match count with
            | O => None
            | S _ => Some (sign * n)
            end
      | _ =>
          let '(n, count, _) := read_digits body 0 O in
          match count with
          | O => None
          | S _ => Some (sign * n)
          end
      end
  end.

(** [Math.ceil(a / b)] for integers, [b] not zero. *)
Definition ceil_div (a b : Z) : Z := - ((- a) / b).

(** [arr.slice(start, end)]: a negative index counts from the end, and both
    are clamped to the array. *)
Definition slice {A : Type} (l : list A) (start finish : Z) : list A :=
  let len := Z.of_nat (List.length l) in
  let clamp i := if i <? 0 then Z.max (len + i) 0 else Z.min i len in
  let k := clamp start in
  let final := clamp finish in
  firstn (Z.to_nat (Z.max (final - k) 0)) (skipn (Z.to_nat k) l).

End Js.

Import Js.

(* ================================================================== *)
(** ** Configuration ([MonitorOptions]) *)

(** A column is a name or a metadata key. *)
Inductive ColumnType : Type :=
| Column (name : string)
| MetadataColumn (key : string).

Module RoomListOptions.
Record t : Type := {
  defaultSort : option string;
  defaultOrder : option string;
  pageSize : option Z
}.
End RoomListOptions.

Module UiOptions.
Record t : Type := {
  roomList : option RoomListOptions.t
}.
End UiOptions.

Module CustomAction.
Record t : Type := {
  id : string;
  name : string;
  description : option string;
  icon : option string;
  confirmRequired : option bool;
  handler : string
}.
End CustomAction.

Module ActionOptions.
Record t : Type := {
  room : option (list CustomAction.t);
  client : option (list CustomAction.t)
}.
End ActionOptions.

Module AccessControlOptions.
Record t : Type := {
  allowStateInspection : option bool;
  allowStateModification : option bool;
  allowClientMessages : option bool;
  allowRoomDisposal : option bool
}.
End AccessControlOptions.

Module FilterOptions.
Record t : Type := {
  includeTypes : option (list string);
  excludeTypes : option (list string)
}.
End FilterOptions.

Module MonitorOptions.
Record t : Type := {
  columns : option (list ColumnType);
  ui : option UiOptions.t;
  actions : option ActionOptions.t;
  access : option AccessControlOptions.t;
  filter : option FilterOptions.t
}.
End MonitorOptions.

(** [opts.access?.flag === false]. *)
Definition access_is_false (opts : MonitorOptions.t)
  (flag : AccessControlOptions.t -> option bool) : bool :=
  match MonitorOptions.access opts with
  | Some a =>
      match flag a with
      | Some false => true
      | _ => false
      end
  | None => false
  end.

(** [opts.actions?.room] and [opts.actions?.client]. *)
Definition room_actions (opts : MonitorOptions.t) : option (list CustomAction.t) :=
  match MonitorOptions.actions opts with
  | Some a => ActionOptions.room a
  | None => None
  end.

Definition client_actions (opts : MonitorOptions.t) : option (list CustomAction.t) :=
  match MonitorOptions.actions opts with
  | Some a => ActionOptions.client a
  | None => None
  end.

Definition roomList_option {A : Type} (opts : MonitorOptions.t)
  (field : RoomListOptions.t -> option A) : option A :=
  match MonitorOptions.ui opts with
  | Some u =>
      match UiOptions.roomList u with
      | Some rl => field rl
      | None => None
      end
  | None => None
  end.

(* ================================================================== *)
(** ** Requests, responses and the world around the router *)

(** A room as the registry lists it: an object, as a rule with [roomId],
    [name], [clients], [maxClients], [locked], [createdAt] and [metadata],
    none of which the router checks. *)
Definition Room : Type := Obj.

(** Query strings; each parameter is given at most once or is absent. *)
Module ListQuery.
Record t : Type := {
  filter : option string;
  sort : option string;
  order : option string;
  page : option string;
  limit : option string
}.
End ListQuery.

Module RoomQuery.
Record t : Type := {
  roomId : option string
}.
End RoomQuery.

Module CallQuery.
Record t : Type := {
  roomId : option string;
  method : option string;
  args : option string
}.
End CallQuery.

(** One [matchMaker.remoteRoomCall(roomId, method, args)]. *)
Record RemoteCall : Type := {
  call_roomId : option string;
  call_method : string;
  call_args : option JsValue
}.

(** What the router takes from its platform and its collaborators:
    [JSON.parse] ([None] when it throws a SyntaxError), the time
    [new Date(v).getTime()] of a value and [Date.now()]; the registry's
    room list and remote call, and the two system probes, each of which may
    reject (with a message, or for the remote call with any error). *)
Record Env : Type := {
  JSON_parse : string -> option JsValue;
  Date_getTime : JsValue -> JsValue;
  Date_now : Z;
  query : string + list Room;
  remoteRoomCall : RemoteCall -> option JsValue;
  cpu_usage : string + JsValue;
  mem_used : string + JsValue
}.

Record Pagination : Type := {
  total : Z;
  page : Z;
  limit : Z;
  pages : Z
}.

Record ListResponse : Type := {
  columns : list ColumnType;
  rooms : list Room;
  pagination : Pagination;
  connections : JsValue;
  cpu : JsValue;
  memory : JsValue;
  actions_room : option (list JsValue);
  actions_client : option (list JsValue);
  access : option AccessControlOptions.t
}.

(** The value handed to [res.json]. *)
Inductive Body : Type :=
| ErrorBody (message : string)
| JsonBody (data : JsValue)
| ListBody (listing : ListResponse).

Record Response : Type := {
  status : Z;
  body : Body
}.

(** A handler either sends one response or lets an exception escape: its
    promise rejects and nothing is sent on the request. *)
Inductive Outcome : Type :=
| Sent (r : Response)
| Rejected (e : JsError).

(* ================================================================== *)
(** ** The router's helpers *)

Definition UNAVAILABLE_ROOM_ERROR : string :=
  "@colyseus/monitor: room $roomId is not available anymore.".

(** [handleError(res, message, status = 500)]. *)
Definition handleError (message : string) (status : Z) : Outcome :=
  Sent {| status := status; body := ErrorBody message |}.

Definition param_text (p : option string) : string :=
  match p with
  | Some s => s
  | None => "undefined"
  end.

Definition unavailable (roomId : option string) : Outcome :=
  handleError (replace UNAVAILABLE_ROOM_ERROR "$roomId" (param_text roomId)) 500.

(** [types.includes(v)] for a list of strings. *)
Definition includes (types : list string) (v : JsValue) : bool :=
  match v with
  | JStr s => existsb (String.eqb s) types
  | _ => false
  end.

Definition applyRoomFilters (rooms : list Room)
  (filterOptions : option FilterOptions.t) : list Room :=
  match filterOptions with
  | None => rooms
  | Some fo =>
      let filteredRooms := rooms in
      let filteredRooms :=
        match FilterOptions.includeTypes fo with
        | Some inc =>
            if (0 <? List.length inc)%nat
            then List.filter (fun room => includes inc (obj_get room "name"))
                   filteredRooms
            else filteredRooms
        | None => filteredRooms
        end in
      let filteredRooms :=
        match FilterOptions.excludeTypes fo with
        | Some exc =>
            if (0 <? List.length exc)%nat
            then List.filter
                   (fun room => negb (includes exc (obj_get room "name")))
                   filteredRooms
            else filteredRooms
        | None => filteredRooms
        end in
      filteredRooms
  end.

(** *** Sorting *)

(** [Array.prototype.sort(cmp)].  The language fixes its result only for a
    consistent comparator (the sort is then stable and ordered); for the
    others it is left to the engine.  The model is the insertion step of
    the engine's sort of short arrays: elements are taken from left to
    right, the one taken is the comparator's first argument and goes
    before the first element it compares below. *)
Section ArraySort.

Context {A : Type}.
Variable cmp : A -> A -> Z.

Fixpoint sort_insert (x : A) (sorted : list A) : list A :=
  match sorted with
  | [] => [x]
  | y :: rest =>
      if cmp x y <? 0 then x :: y :: rest
      else y :: sort_insert x rest
  end.

Definition sort_from (sorted rest : list A) : list A :=
  fold_left (fun acc x => sort_insert x acc) rest sorted.

Definition array_sort (l : list A) : list A := sort_from [] l.

End ArraySort.

(** The value the sort compares: the path walked with [?.]. *)
Definition sortValue (sort : string) (room : Room) : JsValue :=
  fold_left opt_get (split_on "." sort) (JObj room).

Definition is_desc (order : option string) : bool :=
  match order with
  | Some o => String.eqb o "desc"
  | None => false
  end.

(** The comparator of [applySorting]. *)
Definition sortCompare (sort : string) (order : option string) (a b : Room) : Z :=
  let aVal := sortValue sort a in
  let bVal := sortValue sort b in
  if strict_eq aVal bVal then 0
  else
    let result := if lt aVal bVal then -1 else 1 in
    if is_desc order then - result else result.

Definition applySorting (rooms : list Room) (sort : option string)
  (order : option string) : list Room :=
  match sort with
  | None => rooms
  | Some s =>
      if String.eqb s EmptyString then rooms
      else array_sort (sortCompare s order) rooms
  end.

(* ================================================================== *)
(** ** The router ([getAPI]) *)

(** [a || b] on optional texts and on optional numbers: the empty text, 0,
    NaN and undefined are falsy. *)
Definition or_text (a b : option string) : option string :=
  match a with
  | Some s => if String.eqb s EmptyString then b else a
  | None => b
  end.

Definition or_num (a b : option Z) : option Z :=
  match a with
  | Some n => if n =? 0 then b else a
  | None => b
  end.

(** The summary of a custom action sent to the client. *)
Definition opt_str (o : option string) : JsValue :=
  match o with
  | Some s => JStr s
  | None => JUndefined
  end.

Definition opt_bool (o : option bool) : JsValue :=
  match o with
  | Some b => JBool b
  | None => JUndefined
  end.

Definition action_summary (action : CustomAction.t) : JsValue :=
  JObj [ ("id", JStr (CustomAction.id action));
         ("name", JStr (CustomAction.name action));
         ("description", opt_str (CustomAction.description action));
         ("icon", opt_str (CustomAction.icon action));
         ("confirmRequired", opt_bool (CustomAction.confirmRequired action)) ].

Definition default_columns : list ColumnType :=
  [ Column "roomId"; Column "name"; Column "clients"; Column "maxClients";
    Column "locked"; Column "elapsedTime" ].

(** [actions.find((a) => a.id === actionId)] followed by the test
    [action && action.handler]: the handler to call, if any. *)
Definition find_handler (actions : option (list CustomAction.t))
  (actionId : string) : option string :=
  match actions with
  | None => None
  | Some l =>
      match find (fun a => String.eqb (CustomAction.id a) actionId) l with
      | Some action =>
          if String.eqb (CustomAction.handler action) EmptyString then None
          else Some (CustomAction.handler action)
      | None => None
      end
  end.

(** [req.query.args || "[]"]: the text handed to [JSON.parse]. *)
Definition call_args_text (q : CallQuery.t) : string :=
  match or_text (CallQuery.args q) None with
  | Some text => text
  | None => "[]"
  end.

Section Router.

Variable env : Env.
Variable opts : MonitorOptions.t.

(** *** GET / *)

Definition query_sort (q : ListQuery.t) : option string :=
  or_text (ListQuery.sort q) (roomList_option opts RoomListOptions.defaultSort).

Definition query_order (q : ListQuery.t) : string :=
  match or_text (or_text (ListQuery.order q)
                   (roomList_option opts RoomListOptions.defaultOrder))
          (Some "asc") with
  | Some o => o
  | None => "asc"
  end.

Definition query_page (q : ListQuery.t) : Z :=
  match or_num (parseInt (ListQuery.page q)) (Some 1) with
  | Some n => n
  | None => 1
  end.

Definition query_limit (q : ListQuery.t) : Z :=
  match or_num (or_num (parseInt (ListQuery.limit q))
                  (roomList_option opts RoomListOptions.pageSize))
          (Some 100) with
  | Some n => n
  | None => 100
  end.

(** One pair of the ad-hoc filter against a room: the room's own field or,
    failing that, the field of its metadata. *)
Definition entry_matches (room : Room) (entry : string * JsValue) : bool :=
  let '(key, value) := entry in
  let metadata := obj_get room "metadata" in
  truthy
    (or_else (JBool (strict_eq (obj_get room key) value))
       (and_then metadata (JBool (strict_eq (opt_get metadata key) value)))).

(** The ad-hoc filter of the [filter] parameter.  A text that does not
    parse, or a parsed value without entries (null), leaves the list as it
    is: the exception is caught before the assignment. *)
Definition applyQueryFilter (filter : option string) (filteredRooms : list Room)
  : list Room :=
  match or_text filter None with
  | None => filteredRooms
  | Some text =>
      match JSON_parse env text with
      | None => filteredRooms
      | Some filterObj =>
          match entries filterObj with
          | inl _ => filteredRooms
          | inr es =>
              List.filter (fun room => forallb (entry_matches room) es)
                filteredRooms
          end
      end
  end.

(** The rooms after the configured and the ad-hoc filter. *)
Definition filteredRooms (allRooms : list Room) (q : ListQuery.t) : list Room :=
  applyQueryFilter (ListQuery.filter q)
    (applyRoomFilters allRooms (MonitorOptions.filter opts)).

Definition sortedRooms (allRooms : list Room) (q : ListQuery.t) : list Room :=
  applySorting (filteredRooms allRooms q) (query_sort q) (Some (query_order q)).

Definition paginatedRooms (allRooms : list Room) (q : ListQuery.t) : list Room :=
  let startIndex := (query_page q - 1) * query_limit q in
  let endIndex := query_page q * query_limit q in
  slice (sortedRooms allRooms q) startIndex endIndex.

Definition list_columns (allRooms : list Room) : list ColumnType :=
  match MonitorOptions.columns opts with
  | Some cols => cols
  | None =>
      match allRooms with
      | first :: _ =>
          match obj_get first "publicAddress" with
          | JUndefined => default_columns
          | _ => default_columns ++ [Column "publicAddress"]
          end
      | [] => default_columns
      end
  end.

(** The body of [paginatedRooms.map]: the room sent to the client. *)
Definition formatRoom (room : Room) : Room :=
  let data := json_clone_obj room in
  let data :=
    obj_set data "locked" (or_else (obj_get room "locked") (JBool false)) in
  let data := obj_set data "private" (obj_get room "private") in
  let data :=
    obj_set data "maxClients" (JStr (to_string (obj_get room "maxClients"))) in
  let data := obj_set data "elapsedTime"
                (sub (JNum (Date_now env))
                     (Date_getTime env (obj_get room "createdAt"))) in
  data.

(** [connections += room.clients] along the page. *)
Definition count_connections (page_rooms : list Room) : JsValue :=
  fold_left (fun connections room => add connections (obj_get room "clients"))
    page_rooms (JNum 0).

Definition listResponse (allRooms : list Room) (q : ListQuery.t)
  (cpu memory : JsValue) : ListResponse :=
  {| columns := list_columns allRooms;
     rooms := map formatRoom (paginatedRooms allRooms q);
     pagination :=
       {| total := Z.of_nat (List.length (filteredRooms allRooms q));
          page := query_page q;
          limit := query_limit q;
          pages := ceil_div (Z.of_nat (List.length (filteredRooms allRooms q)))
                     (query_limit q) |};
     connections := count_connections (paginatedRooms allRooms q);
     cpu := cpu;
     memory := memory;
     actions_room := option_map (map action_summary) (room_actions opts);
     actions_client := option_map (map action_summary) (client_actions opts);
     access := MonitorOptions.access opts |}.

Definition listHandler (q : ListQuery.t) : Outcome :=
  match query env with
  | inl message => handleError message 500
  | inr allRooms =>
      match cpu_usage env with
      | inl message => handleError message 500
      | inr cpu =>
          match mem_used env with
          | inl message => handleError message 500
          | inr memory =>
              Sent {| status := 200;
                      body := ListBody (listResponse allRooms q cpu memory) |}
          end
      end
  end.

(** *** GET /room *)

(** A remote call and what follows it: the data on success, the
    unavailable-room error when the call rejects. *)
Definition call_remote (c : RemoteCall) (k : JsValue -> Outcome)
  : list RemoteCall * Outcome :=
  match remoteRoomCall env c with
  | Some data => ([c], k data)
  | None => ([c], unavailable (call_roomId c))
  end.

Definition send_json (data : JsValue) : Outcome :=
  Sent {| status := 200; body := JsonBody data |}.

(** [if (actions) inspectData[key] = actions.map(summary)]. *)
Definition attach_actions (inspectData : JsValue) (key : string)
  (actions : option (list CustomAction.t)) : JsError + JsValue :=
  match actions with
  | Some l => set inspectData key (JArr (map action_summary l))
  | None => inr inspectData
  end.

Definition roomHandler (q : RoomQuery.t) : list RemoteCall * Outcome :=
  let roomId := RoomQuery.roomId q in
  if access_is_false opts AccessControlOptions.allowStateInspection
  then ([], handleError "State inspection is not allowed" 403)
  else
    call_remote
      {| call_roomId := roomId; call_method := "getInspectData";
         call_args := None |}
      (fun inspectData =>
         match attach_actions inspectData "actions" (room_actions opts) with
         | inl _ => unavailable roomId
         | inr inspectData =>
             match attach_actions inspectData "clientActions"
                     (client_actions opts) with
             | inl _ => unavailable roomId
             | inr inspectData => send_json inspectData
             end
         end).

(** *** GET /room/call *)

(** The part of the handler inside [try], once [args] is parsed. *)
Definition dispatch (roomId : option string) (method : option string)
  (args : JsValue) : list RemoteCall * Outcome :=
  match method with
  | None =>
      (* [method.startsWith] on undefined throws inside the [try] *)
      ([], unavailable roomId)
  | Some method =>
      if String.eqb method "disconnect"
         && access_is_false opts AccessControlOptions.allowRoomDisposal
      then ([], handleError "Room disposal is not allowed" 403)
      else if String.eqb method "_sendMessageToClient"
              && access_is_false opts AccessControlOptions.allowClientMessages
      then ([], handleError "Sending client messages is not allowed" 403)
      else if String.prefix "customAction:" method
      then
        let actionId := replace method "customAction:" EmptyString in
        match find_handler (room_actions opts) actionId with
        | Some handler =>
            call_remote
              {| call_roomId := roomId; call_method := handler;
                 call_args := Some args |}
              send_json
        | None =>
            ([], handleError
                   (String.append "Custom action "
                      (String.append actionId " not found")) 404)
        end
      else if String.prefix "customClientAction:" method
      then
        let parts :=
          split_on ":" (replace method "customClientAction:" EmptyString) in
        let actionId := nth_error parts 0 in
        let clientId := nth_error parts 1 in
        match match actionId with
              | Some i => find_handler (client_actions opts) i
              | None => None
              end with
        | Some handler =>
            match spread args with
            | inl _ => ([], unavailable roomId)
            | inr rest =>
                call_remote
                  {| call_roomId := roomId; call_method := handler;
                     call_args := Some (JArr (opt_str clientId :: rest)) |}
                  send_json
            end
        | None =>
            ([], handleError
                   (String.append "Custom client action "
                      (String.append (param_text actionId) " not found")) 404)
        end
      else
        call_remote
          {| call_roomId := roomId; call_method := method;
             call_args := Some args |}
          send_json
  end.

(** [args] is parsed before the [try]: a SyntaxError escapes the handler. *)
Definition callHandler (q : CallQuery.t) : list RemoteCall * Outcome :=
  match JSON_parse env (call_args_text q) with
  | None => ([], Rejected SyntaxError)
  | Some args => dispatch (CallQuery.roomId q) (CallQuery.method q) args
  end.

(** *** GET /health *)

Definition healthHandler : Outcome :=
  send_json (JObj [("status", JStr "ok")]).

End Router.

(** *** Consistency of a comparator on a list *)

(** [asymmetric_on cmp l]: no two elements of [l] are each below the
    other (so none is below itself). *)
Definition asymmetric_on {A : Type} (cmp : A -> A -> Z) (l : list A) : bool :=
  forallb (fun x =>
    forallb (fun y => implb (cmp x y <? 0) (negb (cmp y x <? 0))) l) l.

Definition transitive_on {A : Type} (cmp : A -> A -> Z) (l : list A) : bool :=
  forallb (fun x =>
    forallb (fun y =>
      forallb (fun z =>
        implb ((cmp x y <? 0) && (cmp y z <? 0)) (cmp x z <? 0)) l) l) l.

(** The comparator orders the elements of [l] consistently. *)
Definition consistent_on {A : Type} (cmp : A -> A -> Z) (l : list A) : bool :=
  asymmetric_on cmp l && transitive_on cmp l.

(** Any two elements at different places of [l] are ordered one way or
    the other: no ties. *)
Fixpoint total_on {A : Type} (cmp : A -> A -> Z) (l : list A) : bool :=
  match l with
  | [] => true
  | x :: rest =>
      forallb (fun y => (cmp x y <? 0) || (cmp y x <? 0)) rest
      && total_on cmp rest
  end.

(** *** Invariants of the insertion *)

(** [x] is below [y] for the comparator. *)
Definition below {A : Type} (cmp : A -> A -> Z) (x y : A) : Prop := cmp x y < 0.

(** What inserting [x] among [elems] needs to keep a list ordered by [R]. *)
Definition insert_ok {A : Type} (cmp : A -> A -> Z) (R : A -> A -> Prop)
  (x : A) (elems : list A) : Prop :=
  (forall y, In y elems -> cmp x y < 0 -> R x y) /\
  (forall y, In y elems -> ~ cmp x y < 0 -> R y x) /\
  (forall y e, In y elems -> In e elems -> cmp x y < 0 -> R y e -> R x e).

(** The same along a whole run of insertions; [seen] lists the elements
    inserted so far. *)
Fixpoint inserts_ok {A : Type} (cmp : A -> A -> Z) (R : A -> A -> Prop)
  (seen rest : list A) : Prop :=
  match rest with
  | [] => True
  | x :: rest' => insert_ok cmp R x seen /\ inserts_ok cmp R (x :: seen) rest'
  end.

(** A property read after the JSON round trip. *)
Definition clone_visible (v : JsValue) : JsValue :=
  match v with
  | JUndefined => JUndefined
  | _ => json_clone v
  end.

(* ================================================================== *)
(** ** Vocabulary of the properties *)

(** The access flag is set, and set to false. *)
Definition explicitly_false (opts : MonitorOptions.t)
  (flag : AccessControlOptions.t -> option bool) : Prop :=
  exists a, MonitorOptions.access opts = Some a /\ flag a = Some false.

(** Some action of the list has this id. *)
Definition registered (actions : option (list CustomAction.t)) (id : string)
  : bool :=
  match actions with
  | Some l => existsb (fun a => String.eqb (CustomAction.id a) id) l
  | None => false
  end.

Fixpoint contains_char (c : ascii) (s : string) : bool :=
  match s with
  | EmptyString => false
  | String d rest => Ascii.eqb d c || contains_char c rest
  end.

(** The outcome is a response with this status. *)
Definition has_status (o : Outcome) (code : Z) : Prop :=
  exists r, o = Sent r /\ status r = code.

Definition sum_Z (l : list Z) : Z := fold_right Z.add 0 l.

(** The [clients] and [name] of a room. *)
Definition clients_of (room : Room) : JsValue := obj_get room "clients".
Definition name_of (room : Room) : JsValue := obj_get room "name".

(** The guards of GET /room/call: the method, the access flag it needs and
    the message of the refusal. *)
Inductive guarded_call :
  string -> (AccessControlOptions.t -> option bool) -> string -> Prop :=
| guard_disconnect :
    guarded_call "disconnect" AccessControlOptions.allowRoomDisposal
      "Room disposal is not allowed"
| guard_message :
    guarded_call "_sendMessageToClient" AccessControlOptions.allowClientMessages
      "Sending client messages is not allowed".

(** The options with [allowStateModification] set to [v] and nothing else
    changed. *)
Definition with_state_modification (v : option bool) (opts : MonitorOptions.t)
  : MonitorOptions.t :=
  {| MonitorOptions.columns := MonitorOptions.columns opts;
     MonitorOptions.ui := MonitorOptions.ui opts;
     MonitorOptions.actions := MonitorOptions.actions opts;
     MonitorOptions.access :=
       Some
         match MonitorOptions.access opts with
         | Some a =>
             {| AccessControlOptions.allowStateInspection :=
                  AccessControlOptions.allowStateInspection a;
                AccessControlOptions.allowStateModification := v;
                AccessControlOptions.allowClientMessages :=
                  AccessControlOptions.allowClientMessages a;
                AccessControlOptions.allowRoomDisposal :=
                  AccessControlOptions.allowRoomDisposal a |}
         | None =>
             {| AccessControlOptions.allowStateInspection := None;
                AccessControlOptions.allowStateModification := v;
                AccessControlOptions.allowClientMessages := None;
                AccessControlOptions.allowRoomDisposal := None |}
         end;
     MonitorOptions.filter := MonitorOptions.filter opts |}.

(* ================================================================== *)
(** ** Sample data *)

Definition sample_room (roomId name : string) (clients : Z) : Room :=
  [ ("roomId", JStr roomId); ("name", JStr name); ("clients", JNum clients);
    ("maxClients", JNum 8); ("locked", JBool false);
    ("createdAt", JNum 1000); ("metadata", JObj [("region", JStr "eu")]) ].

(** A room without metadata. *)
Definition bare_room (roomId : string) : Room :=
  [ ("roomId", JStr roomId); ("name", JStr "LobbyRoom"); ("clients", JNum 0) ].

Definition sample_rooms : list Room :=
  [ sample_room "a" "GameRoom" 2; sample_room "b" "GameRoom" 5;
    bare_room "l"; sample_room "c" "GameRoom" 1 ].

(** [JSON.parse] on the three texts the samples use: two arrays, and an
    unfinished object, which is a SyntaxError. *)
Definition sample_parse (text : string) : option JsValue :=
  if String.eqb text "[]" then Some (JArr [])
  else if String.eqb text "[1]" then Some (JArr [JNum 1])
  else None.

(** A registry where every room answers a call with [true]; creation
    times are numbers of milliseconds. *)
Definition sample_env : Env :=
  {| JSON_parse := sample_parse;
     Date_getTime := fun v => of_number (to_number v);
     Date_now := 5000;
     query := inr sample_rooms;
     remoteRoomCall := fun _ => Some (JBool true);
     cpu_usage := inr (JNum 12);
     mem_used := inr (JNum 34) |}.

Definition sample_action (id handler : string) : CustomAction.t :=
  {| CustomAction.id := id; CustomAction.name := id;
     CustomAction.description := None; CustomAction.icon := None;
     CustomAction.confirmRequired := None; CustomAction.handler := handler |}.

(** State modification is switched off and the other flags are left out. *)
Definition sample_opts : MonitorOptions.t :=
  {| MonitorOptions.columns := None;
     MonitorOptions.ui := None;
     MonitorOptions.actions :=
       Some {| ActionOptions.room := Some [sample_action "restart" "restartRoom"];
               ActionOptions.client := Some [sample_action "ping" "pingClient"] |};
     MonitorOptions.access :=
       Some {| AccessControlOptions.allowStateInspection := None;
               AccessControlOptions.allowStateModification := Some false;
               AccessControlOptions.allowClientMessages := None;
               AccessControlOptions.allowRoomDisposal := None |};
     MonitorOptions.filter :=
       Some {| FilterOptions.includeTypes := Some ["GameRoom"];
               FilterOptions.excludeTypes := Some ["LobbyRoom"] |} |}.

Definition list_query (sort order page limit : option string) : ListQuery.t :=
  {| ListQuery.filter := None; ListQuery.sort := sort;
     ListQuery.order := order; ListQuery.page := page;
     ListQuery.limit := limit |}.

Definition call_query (roomId method : string) (args : option string)
  : CallQuery.t :=
  {| CallQuery.roomId := Some roomId; CallQuery.method := Some method;
     CallQuery.args := args |}.

(** Every access flag switched off. *)
Definition strict_opts : MonitorOptions.t :=
  {| MonitorOptions.columns := None;
     MonitorOptions.ui := None;
     MonitorOptions.actions := None;
     MonitorOptions.access :=
       Some {| AccessControlOptions.allowStateInspection := Some false;
               AccessControlOptions.allowStateModification := Some false;
               AccessControlOptions.allowClientMessages := Some false;
               AccessControlOptions.allowRoomDisposal := Some false |};
     MonitorOptions.filter := None |}.

(** A registry whose rooms are all disposed: every remote call rejects. *)
Definition gone_env : Env :=
  {| JSON_parse := sample_parse;
     Date_getTime := fun v => of_number (to_number v);
     Date_now := 5000;
     query := inr [];
     remoteRoomCall := fun _ => None;
     cpu_usage := inr (JNum 12);
     mem_used := inr (JNum 34) |}.

(* ================================================================== *)
(** ** Further vocabulary *)

(** The type lists of the configured filter, read in one pass: a list
    that is absent or empty does not filter. *)
Definition has_types (types : option (list string)) : bool :=
  match types with
  | Some (_ :: _) => true
  | _ => false
  end.

Definition listed (types : option (list string)) (room : Room) : bool :=
  match types with
  | Some l => includes l (name_of room)
  | None => false
  end.

Definition room_allowed (filterOptions : option FilterOptions.t) (room : Room)
  : bool :=
  match filterOptions with
  | None => true
  | Some fo =>
      (negb (has_types (FilterOptions.includeTypes fo))
       || listed (FilterOptions.includeTypes fo) room)
      && negb (has_types (FilterOptions.excludeTypes fo)
               && listed (FilterOptions.excludeTypes fo) room)
  end.

(** No room of the list is below a room placed before it. *)
Definition ordered_by {A : Type} (cmp : A -> A -> Z) (l : list A) : Prop :=
  StronglySorted (fun a b => ~ cmp b a < 0) l.

(** The rooms of the list have numbers as comparison values, and these
    numbers never go down (or never go up) along the list. *)
Definition numbers_along (sort : string) (R : Z -> Z -> Prop) (l : list Room)
  : Prop :=
  StronglySorted
    (fun a b => forall n m,
         sortValue sort a = JNum n -> sortValue sort b = JNum m -> R n m) l.

(** One pair of the ad-hoc filter matches a room: by the room's own
    field, or by the field of a truthy [metadata]. *)
Definition pair_matches (room : Room) (key : string) (value : JsValue) : Prop :=
  strict_eq (obj_get room key) value = true
  \/ (truthy (obj_get room "metadata") = true
      /\ strict_eq (opt_get (obj_get room "metadata") key) value = true).

(** Values that survive the JSON round trip unchanged. *)
Definition is_plain (v : JsValue) : bool :=
  match v with
  | JNull | JBool _ | JNum _ | JStr _ => true
  | _ => false
  end.

(** The options with the access object replaced. *)
Definition with_access (a : option AccessControlOptions.t)
  (opts : MonitorOptions.t) : MonitorOptions.t :=
  {| MonitorOptions.columns := MonitorOptions.columns opts;
     MonitorOptions.ui := MonitorOptions.ui opts;
     MonitorOptions.actions := MonitorOptions.actions opts;
     MonitorOptions.access := a;
     MonitorOptions.filter := MonitorOptions.filter opts |}.

(** The options with the handler of every custom action blanked. *)
Definition blank_handler (action : CustomAction.t) : CustomAction.t :=
  {| CustomAction.id := CustomAction.id action;
     CustomAction.name := CustomAction.name action;
     CustomAction.description := CustomAction.description action;
     CustomAction.icon := CustomAction.icon action;
     CustomAction.confirmRequired := CustomAction.confirmRequired action;
     CustomAction.handler := EmptyString |}.

Definition without_handlers (opts : MonitorOptions.t) : MonitorOptions.t :=
  {| MonitorOptions.columns := MonitorOptions.columns opts;
     MonitorOptions.ui := MonitorOptions.ui opts;
     MonitorOptions.actions :=
       option_map
         (fun a =>
            {| ActionOptions.room :=
                 option_map (map blank_handler) (ActionOptions.room a);
               ActionOptions.client :=
                 option_map (map blank_handler) (ActionOptions.client a) |})
         (MonitorOptions.actions opts);
     MonitorOptions.access := MonitorOptions.access opts;
     MonitorOptions.filter := MonitorOptions.filter opts |}.

(** The first action of the list with this id. *)
Definition first_action (actions : option (list CustomAction.t)) (id : string)
  : option CustomAction.t :=
  match actions with
  | Some l => find (fun a => String.eqb (CustomAction.id a) id) l
  | None => None
  end.

(* ================================================================== *)
(** ** The client of the room endpoints ([services]) *)

(** The requests the panel's client library builds for GET /room/call.
    [JSON.stringify] is taken from the platform; the query string carries
    the three parameters to the router as they are. *)
Module Services.

Section Client.

Variable JSON_stringify : JsValue -> string.

(** [remoteRoomCall(roomId, method, ...args)]. *)
Definition remoteRoomCall (roomId method : string) (args : list JsValue)
  : CallQuery.t :=
  {| CallQuery.roomId := Some roomId;
     CallQuery.method := Some method;
     CallQuery.args := Some (JSON_stringify (JArr args)) |}.

(** [executeRoomAction(roomId, actionId, ...args)]. *)
Definition executeRoomAction (roomId actionId : string) (args : list JsValue)
  : CallQuery.t :=
  remoteRoomCall roomId (String.append "customAction:" actionId) args.

(** [executeClientAction(roomId, actionId, clientId, ...args)]. *)
Definition executeClientAction (roomId actionId clientId : string)
  (args : list JsValue) : CallQuery.t :=
  remoteRoomCall roomId
    (String.append "customClientAction:"
       (String.append actionId (String.append ":" clientId)))
    args.

(** [updateRoomState(roomId, path, value)]. *)
Definition updateRoomState (roomId path : string) (value : JsValue)
  : CallQuery.t :=
  remoteRoomCall roomId "_updateRoomState" [JStr path; value].

End Client.

End Services.

(* ================================================================== *)
(** ** The frontend configuration ([getConfig]) *)

Module Config.

(** The own property [k] of a value, as an object spread sees it:
    undefined, null, numbers and booleans have none. *)
Definition has_key (es : Obj) (k : string) : bool :=
  existsb (fun kv => String.eqb (fst kv) k) es.

Definition own (v : JsValue) (k : string) : option JsValue :=
  match entries v with
  | inr es => if has_key es k then Some (obj_get es k) else None
  | inl _ => None
  end.

(** [{ ...target, ...src }] continued: the own properties of [src] are
    set on [target] in their order. *)
Definition spread_into (target : Obj) (src : JsValue) : Obj :=
  match entries src with
  | inr es =>
      fold_left (fun acc kv => obj_set acc (fst kv) (obj_get es (fst kv)))
        es target
  | inl _ => target
  end.

Definition defaultConfig : Obj :=
  [ ("theme", JObj [("mode", JStr "system")]);
    ("layout", JObj [ ("style", JStr "full");
                      ("density", JStr "comfortable");
                      ("showHeader", JBool true);
                      ("showFooter", JBool true) ]);
    ("roomList", JObj [ ("defaultSort", JStr "clients");
                        ("defaultOrder", JStr "desc");
                        ("pageSize", JNum 20);
                        ("showPagination", JBool true);
                        ("refreshInterval", JNum 5000);
                        ("enableRealtime", JBool false);
                        ("showEmptyRooms", JBool true) ]);
    ("roomInspect", JObj [ ("tabs", JArr [JStr "state"; JStr "clients"]);
                           ("stateView", JStr "tree");
                           ("allowStateEdit", JBool false) ]);
    ("apiPrefix", JStr "/api");
    ("access", JObj [ ("allowStateInspection", JBool true);
                      ("allowStateModification", JBool false);
                      ("allowClientMessages", JBool true);
                      ("allowRoomDisposal", JBool true) ]);
    ("realtime", JObj [ ("enabled", JBool false);
                        ("transport", JStr "http-polling");
                        ("updateInterval", JNum 5000) ]) ].

(** The sections merged key by key. *)
Definition sections : list string :=
  [ "theme"; "layout"; "roomList"; "roomInspect"; "access"; "realtime" ].

(** [{ ...defaultConfig[name], ...globalConfig[name] }]. *)
Definition merged_section (globalConfig : JsValue) (name : string) : JsValue :=
  JObj (spread_into (spread_into [] (obj_get defaultConfig name))
          (opt_get globalConfig name)).

(** [getConfig()], for the value of the global variable
    [__COLYSEUS_MONITOR_CONFIG]. *)
Definition getConfig (global : JsValue) : Obj :=
  let globalConfig := or_else global (JObj []) in
  let config := spread_into (spread_into [] (JObj defaultConfig)) globalConfig in
  fold_left (fun acc name => obj_set acc name (merged_section globalConfig name))
    sections config.

End Config.

(* ================================================================== *)
(** ** Facts about the sort *)

Lemma filter_none {A : Type} (f : A -> bool) (l : list A) :
  (forall e, In e l -> f e = false) -> List.filter f l = [].
Proof.
  induction l as [|a l IH]; intros H; [reflexivity|].
  simpl. rewrite (H a (or_introl eq_refl)).
  apply IH. intros e He. apply H. now right.
Qed.

Section ArraySortFacts.

Context {A : Type}.
Variable cmp : A -> A -> Z.

Lemma sort_insert_perm (x : A) (l : list A) :
  Permutation (sort_insert cmp x l) (x :: l).
Proof.
  induction l as [|y l IH]; simpl.
  - apply Permutation_refl.
  - destruct (cmp x y <? 0).
    + apply Permutation_refl.
    + apply Permutation_trans with (y :: x :: l).
      * now apply perm_skip.
      * apply perm_swap.
Qed.

Lemma sort_from_perm (rest acc : list A) :
  Permutation (sort_from cmp acc rest) (acc ++ rest).
Proof.
  revert acc.
  induction rest as [|x rest IH]; intros acc; simpl.
  - rewrite app_nil_r. apply Permutation_refl.
  - eapply Permutation_trans; [apply IH|].
    eapply Permutation_trans.
    + apply Permutation_app_tail. apply sort_insert_perm.
    + simpl. apply Permutation_middle.
Qed.

Lemma array_sort_perm (l : list A) : Permutation (array_sort cmp l) l.
Proof. apply (sort_from_perm l []). Qed.

Lemma sort_insert_In (x e : A) (l : list A) :
  In e (sort_insert cmp x l) <-> e = x \/ In e l.
Proof.
  split; intros H.
  - apply (Permutation_in _ (sort_insert_perm x l)) in H.
    destruct H as [H|H]; [left; now symmetry | now right].
  - apply (Permutation_in _ (Permutation_sym (sort_insert_perm x l))).
    destruct H as [H|H]; [left; now symmetry | now right].
Qed.

Lemma insert_ok_incl (R : A -> A -> Prop) (x : A) (l l' : list A) :
  (forall e, In e l' -> In e l) -> insert_ok cmp R x l -> insert_ok cmp R x l'.
Proof.
  intros Hin (H1 & H2 & H3).
  repeat split; intros.
  - apply H1; auto.
  - apply H2; auto.
  - apply H3 with y; auto.
Qed.

Lemma sort_insert_sorted (R : A -> A -> Prop) (x : A) (acc : list A) :
  insert_ok cmp R x acc ->
  StronglySorted R acc ->
  StronglySorted R (sort_insert cmp x acc).
Proof.
  induction acc as [|y acc IH]; intros Hok Hs; simpl.
  - constructor; constructor.
  - inversion Hs as [|? ? Hs' Hall]; subst.
    destruct Hok as (H1 & H2 & H3).
    destruct (cmp x y <? 0) eqn:E.
    + apply Z.ltb_lt in E.
      constructor; [assumption|].
      constructor.
      * apply H1; [now left | assumption].
      * rewrite Forall_forall in *. intros e He.
        apply H3 with y; [now left | now right | assumption | now apply Hall].
    + assert (E' : ~ cmp x y < 0) by (intro F; apply Z.ltb_lt in F; congruence).
      constructor.
      * apply IH; [|assumption].
        apply insert_ok_incl with (y :: acc); [intros; now right|].
        repeat split; assumption.
      * rewrite Forall_forall in *. intros e He.
        apply sort_insert_In in He. destruct He as [->|He].
        -- apply H2; [now left | assumption].
        -- now apply Hall.
Qed.

Lemma inserts_ok_ext (R : A -> A -> Prop) (rest : list A) :
  forall seen seen',
    (forall e, In e seen' -> In e seen) ->
    inserts_ok cmp R seen rest -> inserts_ok cmp R seen' rest.
Proof.
  induction rest as [|x rest IH]; intros seen seen' Hin H; simpl in *.
  - exact I.
  - destruct H as [Hx Hr]. split.
    + now apply insert_ok_incl with seen.
    + apply IH with (x :: seen); [|assumption].
      intros e [->|He]; [now left | right; now apply Hin].
Qed.

Lemma sort_from_sorted (R : A -> A -> Prop) (rest : list A) :
  forall acc,
    inserts_ok cmp R acc rest ->
    StronglySorted R acc ->
    StronglySorted R (sort_from cmp acc rest).
Proof.
  induction rest as [|x rest IH]; intros acc Hok Hs; simpl in *.
  - assumption.
  - destruct Hok as [Hx Hr].
    apply IH.
    + apply inserts_ok_ext with (x :: acc); [|assumption].
      intros e He. apply sort_insert_In in He.
      destruct He as [->|He]; [now left | now right].
    + now apply sort_insert_sorted.
Qed.

(** *** Stability *)

(** [sel] selects elements the comparator cannot tell apart. *)
Variable sel : A -> bool.
Hypothesis sel_tie : forall x y, sel x = true -> sel y = true -> ~ cmp x y < 0.
Hypothesis sel_same :
  forall x e y, sel x = true -> sel e = true -> cmp x y < 0 -> cmp e y < 0.

Lemma sort_insert_filter (x : A) (acc : list A) :
  StronglySorted (fun a b => ~ cmp b a < 0) acc ->
  List.filter sel (sort_insert cmp x acc)
  = List.filter sel acc ++ List.filter sel [x].
Proof.
  induction acc as [|y acc IH]; intros Hs.
  - reflexivity.
  - inversion Hs as [|? ? Hs' Hall]; subst.
    cbn [sort_insert].
    destruct (cmp x y <? 0) eqn:E.
    + apply Z.ltb_lt in E.
      destruct (sel x) eqn:Sx.
      * assert (Hnone : List.filter sel (y :: acc) = []).
        { apply filter_none. intros e He.
          destruct (sel e) eqn:Se; [|reflexivity].
          exfalso. destruct He as [<-|He].
          - now apply (sel_tie x y).
          - rewrite Forall_forall in Hall.
            apply (Hall e He). now apply (sel_same x e y). }
        change (List.filter sel (x :: y :: acc))
          with (if sel x then x :: List.filter sel (y :: acc)
                else List.filter sel (y :: acc)).
        rewrite Sx, Hnone. cbn [List.filter app]. now rewrite Sx.
      * cbn [List.filter]. rewrite Sx. now rewrite app_nil_r.
    + cbn [List.filter]. rewrite (IH Hs'). cbn [List.filter].
      destruct (sel y); reflexivity.
Qed.

Lemma sort_from_filter (rest : list A) :
  forall acc,
    inserts_ok cmp (fun a b => ~ cmp b a < 0) acc rest ->
    StronglySorted (fun a b => ~ cmp b a < 0) acc ->
    List.filter sel (sort_from cmp acc rest)
    = List.filter sel acc ++ List.filter sel rest.
Proof.
  induction rest as [|x rest IH]; intros acc Hok Hs; simpl in Hok.
  - simpl. now rewrite app_nil_r.
  - destruct Hok as [Hx Hr].
    change (sort_from cmp acc (x :: rest))
      with (sort_from cmp (sort_insert cmp x acc) rest).
    rewrite IH.
    + rewrite sort_insert_filter by assumption.
      rewrite <- app_assoc. cbn [List.filter].
      destruct (sel x); reflexivity.
    + apply inserts_ok_ext with (x :: acc); [|assumption].
      intros e He. apply sort_insert_In in He.
      destruct He as [->|He]; [now left | now right].
    + now apply sort_insert_sorted.
Qed.

End ArraySortFacts.

(** *** Consistent comparators *)

Section Consistency.

Context {A : Type}.
Variable cmp : A -> A -> Z.

Lemma asymmetric_on_spec (l : list A) :
  asymmetric_on cmp l = true ->
  forall x y, In x l -> In y l -> cmp x y < 0 -> ~ cmp y x < 0.
Proof.
  unfold asymmetric_on. intros H x y Hx Hy Hxy Hyx.
  rewrite forallb_forall in H. specialize (H x Hx).
  rewrite forallb_forall in H. specialize (H y Hy).
  apply Z.ltb_lt in Hxy, Hyx. rewrite Hxy, Hyx in H. discriminate.
Qed.

Lemma transitive_on_spec (l : list A) :
  transitive_on cmp l = true ->
  forall x y z, In x l -> In y l -> In z l ->
                cmp x y < 0 -> cmp y z < 0 -> cmp x z < 0.
Proof.
  unfold transitive_on. intros H x y z Hx Hy Hz Hxy Hyz.
  rewrite forallb_forall in H. specialize (H x Hx).
  rewrite forallb_forall in H. specialize (H y Hy).
  rewrite forallb_forall in H. specialize (H z Hz).
  apply Z.ltb_lt in Hxy, Hyz. rewrite Hxy, Hyz in H.
  now apply Z.ltb_lt.
Qed.

Lemma total_on_spec (l : list A) :
  total_on cmp l = true ->
  ForallOrdPairs (fun x y => cmp x y < 0 \/ cmp y x < 0) l.
Proof.
  induction l as [|x l IH]; intros H; simpl in H.
  - constructor.
  - apply andb_true_iff in H. destruct H as [Hx Hl].
    constructor; [|now apply IH].
    rewrite forallb_forall in Hx. apply Forall_forall. intros y Hy.
    specialize (Hx y Hy). apply orb_true_iff in Hx.
    destruct Hx as [Hx|Hx]; apply Z.ltb_lt in Hx; auto.
Qed.

Lemma total_on_NoDup (l : list A) :
  (forall x, In x l -> ~ cmp x x < 0) ->
  ForallOrdPairs (fun x y => cmp x y < 0 \/ cmp y x < 0) l ->
  NoDup l.
Proof.
  intros Hirr H. induction H as [|x l Hx Hl IH].
  - constructor.
  - constructor.
    + intros Hin. rewrite Forall_forall in Hx.
      destruct (Hx x Hin) as [F|F]; apply (Hirr x (or_introl eq_refl) F).
    + apply IH. intros y Hy. apply Hirr. now right.
Qed.

(** With a consistent comparator every insertion keeps the list ordered:
    no element is below one placed before it. *)
Lemma consistent_inserts_ok (l : list A) :
  consistent_on cmp l = true ->
  forall rest seen,
    incl seen l -> incl rest l ->
    inserts_ok cmp (fun a b => ~ cmp b a < 0) seen rest.
Proof.
  intros H. apply andb_true_iff in H. destruct H as [Ha Ht].
  pose proof (asymmetric_on_spec l Ha) as asym.
  pose proof (transitive_on_spec l Ht) as trans.
  induction rest as [|x rest IH]; intros seen Hseen Hrest; simpl.
  - exact I.
  - assert (Hx : In x l) by (apply Hrest; now left).
    split.
    + repeat split.
      * intros y Hy Hlt. apply asym; auto.
      * intros y Hy Hn. exact Hn.
      * intros y e Hy He Hlt Hn Hex. apply Hn.
        apply trans with x; auto.
    + apply IH.
      * intros e [<-|He]; auto.
      * intros e He. apply Hrest. now right.
Qed.

Theorem array_sort_stable (sel : A -> bool) (l : list A) :
  (forall x y, sel x = true -> sel y = true -> ~ cmp x y < 0) ->
  (forall x e y, sel x = true -> sel e = true -> cmp x y < 0 -> cmp e y < 0) ->
  consistent_on cmp l = true ->
  List.filter sel (array_sort cmp l) = List.filter sel l.
Proof.
  intros Htie Hsame Hc.
  unfold array_sort.
  rewrite (sort_from_filter cmp sel Htie Hsame l []).
  - reflexivity.
  - apply (consistent_inserts_ok l Hc).
    + intros e [].
    + apply incl_refl.
  - constructor.
Qed.

End Consistency.

(** *** Reversing a linear order *)

Lemma StronglySorted_app {A : Type} (R : A -> A -> Prop) (l1 l2 : list A) :
  StronglySorted R l1 -> StronglySorted R l2 ->
  (forall x y, In x l1 -> In y l2 -> R x y) ->
  StronglySorted R (l1 ++ l2).
Proof.
  induction l1 as [|a l1 IH]; intros H1 H2 H; simpl.
  - assumption.
  - inversion H1 as [|? ? Hs Hall]; subst.
    constructor.
    + apply IH; auto. intros x y Hx Hy. apply H; [now right | assumption].
    + apply Forall_app. split; [assumption|].
      apply Forall_forall. intros y Hy. apply H; [now left | assumption].
Qed.

Lemma StronglySorted_rev {A : Type} (R : A -> A -> Prop) (l : list A) :
  StronglySorted R l -> StronglySorted (fun a b => R b a) (rev l).
Proof.
  induction 1 as [|a l Hs IH Hall]; simpl.
  - constructor.
  - apply StronglySorted_app.
    + assumption.
    + constructor; constructor.
    + intros x y Hx [<-|[]]. rewrite Forall_forall in Hall.
      apply Hall. now apply in_rev.
Qed.

(** Two lists ordered by an asymmetric relation and holding the same
    elements are the same list. *)
Lemma sorted_perm_unique {A : Type} (R : A -> A -> Prop) (l1 : list A) :
  forall l2,
    (forall x y, In x l1 -> In y l1 -> R x y -> ~ R y x) ->
    StronglySorted R l1 -> StronglySorted R l2 -> Permutation l1 l2 ->
    l1 = l2.
Proof.
  induction l1 as [|a l1 IH]; intros l2 Hasym H1 H2 Hp.
  - apply Permutation_nil in Hp. now subst.
  - destruct l2 as [|b l2].
    + apply Permutation_sym, Permutation_nil in Hp. discriminate.
    + inversion H1 as [|? ? Hs1 Hall1]; subst.
      inversion H2 as [|? ? Hs2 Hall2]; subst.
      rewrite Forall_forall in Hall1, Hall2.
      assert (Hab : a = b).
      { assert (Ha : In a (b :: l2))
          by (apply (Permutation_in _ Hp); now left).
        assert (Hb : In b (a :: l1))
          by (apply (Permutation_in _ (Permutation_sym Hp)); now left).
        destruct Ha as [Ha|Ha]; [now symmetry|].
        destruct Hb as [Hb|Hb]; [assumption|].
        exfalso. apply (Hasym a b); [now left | now right | now apply Hall1 |].
        now apply Hall2. }
      subst b. f_equal.
      apply IH; auto.
      * intros x y Hx Hy. apply Hasym; now right.
      * now apply Permutation_cons_inv with a.
Qed.

Section Reverse.

Context {A : Type}.
Variables cmp cmp' : A -> A -> Z.
Hypothesis cmp'_opp : forall x y, cmp' x y = - cmp x y.
Hypothesis cmp_zero_sym : forall x y, cmp x y = 0 -> cmp y x = 0.

Variable l : list A.
Hypothesis l_consistent : consistent_on cmp l = true.
Hypothesis l_total : total_on cmp l = true.

Lemma linear_asym : forall x y, In x l -> In y l -> below cmp x y -> ~ below cmp y x.
Proof.
  apply andb_true_iff in l_consistent. destruct l_consistent as [Ha _].
  exact (asymmetric_on_spec cmp l Ha).
Qed.

Lemma linear_trans :
  forall x y z,
    In x l -> In y l -> In z l ->
    below cmp x y -> below cmp y z -> below cmp x z.
Proof.
  apply andb_true_iff in l_consistent. destruct l_consistent as [_ Ht].
  exact (transitive_on_spec cmp l Ht).
Qed.

Lemma linear_NoDup : NoDup l.
Proof.
  apply (total_on_NoDup cmp).
  - intros x Hx F. exact (linear_asym x x Hx Hx F F).
  - now apply total_on_spec.
Qed.

Lemma linear_total :
  forall x y, In x l -> In y l -> x <> y -> below cmp x y \/ below cmp y x.
Proof.
  intros x y Hx Hy Hne.
  destruct (ForallOrdPairs_In (total_on_spec cmp l l_total) x y Hx Hy)
    as [E|[[H|H]|[H|H]]]; [contradiction | | | | ]; auto.
Qed.

(** The element inserted next is new among those seen, and the run goes
    on under the same conditions. *)
Lemma next_insertion (seen rest : list A) (x : A) :
  NoDup (seen ++ x :: rest) -> incl (seen ++ x :: rest) l ->
  In x l
  /\ (forall y, In y seen -> In y l /\ x <> y)
  /\ NoDup ((x :: seen) ++ rest)
  /\ incl ((x :: seen) ++ rest) l.
Proof.
  intros Hnd Hin. repeat split.
  - apply Hin, in_elt.
  - apply Hin, in_or_app. now left.
  - intros <-. apply NoDup_remove_2 in Hnd. apply Hnd.
    apply in_or_app. now left.
  - apply (Permutation_NoDup (l := seen ++ x :: rest)); [|assumption].
    apply Permutation_sym. simpl. apply Permutation_middle.
  - intros e He. apply Hin.
    apply (Permutation_in (l := (x :: seen) ++ rest)); [|assumption].
    simpl. apply Permutation_middle.
Qed.

Lemma linear_inserts_asc (rest : list A) :
  forall seen,
    NoDup (seen ++ rest) -> incl (seen ++ rest) l ->
    inserts_ok cmp (below cmp) seen rest.
Proof.
  induction rest as [|x rest IH]; intros seen Hnd Hin; simpl.
  - exact I.
  - destruct (next_insertion seen rest x Hnd Hin) as (Hx & Hseen & Hnd' & Hin').
    split; [|now apply IH].
    repeat split.
    + intros y Hy Hlt. exact Hlt.
    + intros y Hy Hn. destruct (Hseen y Hy) as [Hyl Hne].
      destruct (linear_total x y Hx Hyl Hne); [contradiction|assumption].
    + intros y e Hy He Hxy Hye.
      apply linear_trans with y; auto; now apply Hseen.
Qed.

(** Under the opposite comparator the same run builds the list ordered the
    other way round. *)
Lemma linear_inserts_desc (rest : list A) :
  forall seen,
    NoDup (seen ++ rest) -> incl (seen ++ rest) l ->
    inserts_ok cmp' (fun a b => below cmp b a) seen rest.
Proof.
  induction rest as [|x rest IH]; intros seen Hnd Hin; simpl.
  - exact I.
  - destruct (next_insertion seen rest x Hnd Hin) as (Hx & Hseen & Hnd' & Hin').
    split; [|now apply IH].
    assert (Hup : forall y, In y seen -> cmp' x y < 0 -> below cmp y x).
    { intros y Hy Hlt. destruct (Hseen y Hy) as [Hyl Hne].
      rewrite cmp'_opp in Hlt.
      destruct (linear_total x y Hx Hyl Hne) as [H|H]; [|assumption].
      unfold below in H. lia. }
    repeat split.
    + exact Hup.
    + intros y Hy Hn. destruct (Hseen y Hy) as [Hyl Hne].
      rewrite cmp'_opp in Hn.
      destruct (linear_total x y Hx Hyl Hne) as [H|H]; [assumption|].
      exfalso. unfold below in H.
      assert (cmp x y <> 0) by (intros E; apply cmp_zero_sym in E; lia).
      assert (~ cmp x y < 0) by (apply (linear_asym y x); auto).
      lia.
    + intros y e Hy He Hxy Hey.
      apply linear_trans with y; auto; now apply Hseen.
Qed.

Theorem array_sort_reverse : array_sort cmp' l = rev (array_sort cmp l).
Proof.
  assert (Hasc : StronglySorted (below cmp) (array_sort cmp l)).
  { apply sort_from_sorted; [|constructor].
    apply linear_inserts_asc; [exact linear_NoDup | apply incl_refl]. }
  assert (Hdesc : StronglySorted (fun a b => below cmp b a) (array_sort cmp' l)).
  { apply sort_from_sorted; [|constructor].
    apply linear_inserts_desc; [exact linear_NoDup | apply incl_refl]. }
  apply (sorted_perm_unique (fun a b => below cmp b a)).
  - intros x y Hx Hy Hxy Hyx.
    apply (Permutation_in _ (array_sort_perm cmp' l)) in Hx, Hy.
    exact (linear_asym y x Hy Hx Hxy Hyx).
  - exact Hdesc.
  - now apply StronglySorted_rev.
  - eapply Permutation_trans; [apply array_sort_perm|].
    eapply Permutation_trans; [|apply Permutation_rev].
    apply Permutation_sym, array_sort_perm.
Qed.

End Reverse.

(* ================================================================== *)
(** ** Facts about values and objects *)

Lemma strict_eq_true (a b : JsValue) : strict_eq a b = true -> a = b.
Proof.
  destruct a, b; simpl; try discriminate; intros H; try reflexivity.
  - apply Bool.eqb_prop in H. now subst.
  - apply Z.eqb_eq in H. now subst.
  - apply String.eqb_eq in H. now subst.
Qed.

Lemma strict_eq_sym (a b : JsValue) : strict_eq a b = strict_eq b a.
Proof.
  destruct a, b; simpl; try reflexivity.
  - now destruct b, b0.
  - apply Z.eqb_sym.
  - apply String.eqb_sym.
Qed.

Lemma strict_eq_undefined (v : JsValue) :
  v <> JUndefined -> strict_eq JUndefined v = false.
Proof. destruct v; simpl; congruence. Qed.

Lemma lt_undefined_l (v : JsValue) : lt JUndefined v = false.
Proof. unfold lt. simpl. now destruct (to_primitive v). Qed.

Lemma lt_undefined_r (v : JsValue) : lt v JUndefined = false.
Proof.
  unfold lt. simpl.
  destruct (to_primitive v) eqn:E; try reflexivity;
    now destruct (to_number _).
Qed.

Lemma opt_get_undefined (parts : list string) :
  fold_left opt_get parts JUndefined = JUndefined.
Proof. induction parts as [|p parts IH]; simpl; auto. Qed.

Lemma obj_get_set_same (o : Obj) (k : string) (v : JsValue) :
  obj_get (obj_set o k v) k = v.
Proof.
  induction o as [|[k' w] o IH]; simpl.
  - now rewrite String.eqb_refl.
  - destruct (String.eqb k' k) eqn:E; simpl; rewrite E; auto.
Qed.

Lemma obj_get_set_other (o : Obj) (k j : string) (v : JsValue) :
  String.eqb k j = false -> obj_get (obj_set o k v) j = obj_get o j.
Proof.
  intros Hkj. induction o as [|[k' w] o IH]; simpl.
  - now rewrite Hkj.
  - destruct (String.eqb k' k) eqn:E; simpl.
    + apply String.eqb_eq in E. subst k'. now rewrite Hkj.
    + destruct (String.eqb k' j); auto.
Qed.

Lemma clone_props_get (k : string) (ps : Obj) :
  forall dropped,
    obj_get (clone_props json_clone dropped ps) k
    = if existsb (String.eqb k) dropped then JUndefined
      else clone_visible (obj_get ps k).
Proof.
  induction ps as [|[k' w] ps IH]; intros dropped; simpl.
  - now destruct (existsb _ dropped).
  - destruct (existsb (String.eqb k') dropped) eqn:Ed.
    + rewrite IH. destruct (String.eqb k' k) eqn:E; [|reflexivity].
      apply String.eqb_eq in E. subst k'. now rewrite Ed.
    + destruct (String.eqb k' k) eqn:E.
      * apply String.eqb_eq in E. subst k'.
        destruct w; simpl; rewrite ?String.eqb_refl; try reflexivity;
          try (now rewrite Ed).
        rewrite IH, Ed. simpl. now rewrite String.eqb_refl.
      * assert (Ek : String.eqb k k' = false) by (now rewrite String.eqb_sym).
        destruct w; simpl; rewrite ?E; try apply IH.
        rewrite IH. simpl. now rewrite Ek.
Qed.

Lemma obj_get_clone (o : Obj) (k : string) :
  obj_get (json_clone_obj o) k = clone_visible (obj_get o k).
Proof. unfold json_clone_obj. now rewrite clone_props_get. Qed.

Lemma slice_window {A : Type} (l : list A) (start finish : Z) :
  0 <= start <= finish ->
  slice l start finish
  = firstn (Z.to_nat (finish - start)) (skipn (Z.to_nat start) l).
Proof.
  intros [H0 Hsf]. unfold slice.
  set (len := Z.of_nat (List.length l)).
  assert (Hlen : 0 <= len) by apply Nat2Z.is_nonneg.
  destruct (start <? 0) eqn:Es; [apply Z.ltb_lt in Es; lia|].
  destruct (finish <? 0) eqn:Ef; [apply Z.ltb_lt in Ef; lia|].
  destruct (Z.le_gt_cases len start) as [Hge|Hlt].
  - rewrite !skipn_all2; [now rewrite !firstn_nil| |]; unfold len in *; lia.
  - rewrite (Z.min_l start len) by lia.
    destruct (Z.le_gt_cases finish len) as [Hfl|Hfl].
    + rewrite (Z.min_l finish len) by lia.
      now rewrite Z.max_l by lia.
    + rewrite (Z.min_r finish len) by lia.
      rewrite Z.max_l by lia.
      rewrite !firstn_all2; [reflexivity| |];
        rewrite length_skipn; unfold len in *; lia.
Qed.

Lemma ceil_div_bounds (a b : Z) :
  0 < b -> (ceil_div a b - 1) * b < a <= ceil_div a b * b.
Proof.
  intros Hb. unfold ceil_div.
  pose proof (Z.div_mod (- a) b ltac:(lia)) as Hdm.
  pose proof (Z.mod_pos_bound (- a) b Hb) as Hm.
  nia.
Qed.

(* ================================================================== *)
(** ** The list endpoint, GET / *)

Lemma In_firstn_list {A : Type} (n : nat) (l : list A) (x : A) :
  In x (firstn n l) -> In x l.
Proof.
  intros H. rewrite <- (firstn_skipn n l). apply in_or_app. now left.
Qed.

Lemma In_skipn_list {A : Type} (n : nat) (l : list A) (x : A) :
  In x (skipn n l) -> In x l.
Proof.
  intros H. rewrite <- (firstn_skipn n l). apply in_or_app. now right.
Qed.

Lemma In_slice {A : Type} (l : list A) (start finish : Z) (x : A) :
  In x (slice l start finish) -> In x l.
Proof.
  unfold slice. intros H.
  apply In_firstn_list in H. now apply In_skipn_list in H.
Qed.

Lemma includes_spec (types : list string) (v : JsValue) :
  includes types v = true <-> exists s, v = JStr s /\ In s types.
Proof.
  unfold includes. split.
  - destruct v; try discriminate. intros H.
    apply existsb_exists in H. destruct H as (t & Ht & E).
    apply String.eqb_eq in E. subst t. now exists s.
  - intros (s & -> & Hs). apply existsb_exists.
    exists s. split; [assumption | apply String.eqb_refl].
Qed.

Lemma nonempty_length {A : Type} (l : list A) :
  l <> [] -> (0 <? List.length l)%nat = true.
Proof. destruct l; [congruence | reflexivity]. Qed.

Lemma applyRoomFilters_incl (rooms : list Room) (fo : option FilterOptions.t)
  (room : Room) :
  In room (applyRoomFilters rooms fo) -> In room rooms.
Proof.
  unfold applyRoomFilters. destruct fo as [fo|]; [|auto].
  intros H.
  destruct (FilterOptions.excludeTypes fo) as [exc|];
    [destruct (0 <? List.length exc)%nat;
     [apply filter_In in H; destruct H as [H _]|]|];
    (destruct (FilterOptions.includeTypes fo) as [inc|];
     [destruct (0 <? List.length inc)%nat;
      [apply filter_In in H; destruct H as [H _]|]|]);
    assumption.
Qed.

Lemma applyRoomFilters_included (rooms : list Room) (fo : FilterOptions.t)
  (inc : list string) (room : Room) :
  FilterOptions.includeTypes fo = Some inc -> inc <> [] ->
  In room (applyRoomFilters rooms (Some fo)) ->
  exists s, name_of room = JStr s /\ In s inc.
Proof.
  unfold applyRoomFilters. intros -> Hne H.
  rewrite (nonempty_length inc Hne) in H.
  apply includes_spec.
  destruct (FilterOptions.excludeTypes fo) as [exc|];
    [destruct (0 <? List.length exc)%nat; [apply filter_In in H; destruct H as [H _]|]|];
    apply filter_In in H; now destruct H.
Qed.

Lemma applyRoomFilters_not_excluded (rooms : list Room) (fo : FilterOptions.t)
  (exc : list string) (room : Room) :
  FilterOptions.excludeTypes fo = Some exc -> exc <> [] ->
  In room (applyRoomFilters rooms (Some fo)) ->
  forall s, name_of room = JStr s -> ~ In s exc.
Proof.
  unfold applyRoomFilters. intros -> Hne H s Hs Hin.
  rewrite (nonempty_length exc Hne) in H.
  apply filter_In in H. destruct H as [_ H].
  apply negb_true_iff in H.
  assert (includes exc (obj_get room "name") = true).
  { apply includes_spec. now exists s. }
  congruence.
Qed.

Lemma applySorting_perm (rooms : list Room) (sort order : option string) :
  Permutation (applySorting rooms sort order) rooms.
Proof.
  unfold applySorting. destruct sort as [s|]; [|apply Permutation_refl].
  destruct (String.eqb s EmptyString); [apply Permutation_refl|].
  apply array_sort_perm.
Qed.

Section ListEndpoint.

Variable env : Env.
Variable opts : MonitorOptions.t.
Variable allRooms : list Room.
Variables cpu memory : JsValue.

Lemma applyQueryFilter_incl (filter : option string) (l : list Room) (room : Room) :
  In room (applyQueryFilter env filter l) -> In room l.
Proof.
  unfold applyQueryFilter.
  destruct (or_text filter None); [|auto].
  destruct (JSON_parse env s); [|auto].
  destruct (entries j); [auto|].
  intros H. apply filter_In in H. now destruct H.
Qed.

Lemma paginated_filtered (q : ListQuery.t) (room : Room) :
  In room (paginatedRooms env opts allRooms q) ->
  In room (applyRoomFilters allRooms (MonitorOptions.filter opts)).
Proof.
  unfold paginatedRooms, sortedRooms, filteredRooms. intros H.
  apply In_slice in H.
  apply (Permutation_in _ (applySorting_perm _ _ _)) in H.
  now apply applyQueryFilter_incl in H.
Qed.

Lemma sorted_length (q : ListQuery.t) :
  List.length (sortedRooms env opts allRooms q)
  = List.length (filteredRooms env opts allRooms q).
Proof. apply Permutation_length, applySorting_perm. Qed.

Lemma listHandler_ok (q : ListQuery.t) :
  query env = inr allRooms ->
  cpu_usage env = inr cpu ->
  mem_used env = inr memory ->
  listHandler env opts q
  = Sent {| status := 200;
            body := ListBody (listResponse env opts allRooms q cpu memory) |}.
Proof. unfold listHandler. now intros -> -> ->. Qed.

Lemma paginated_window (q : ListQuery.t) :
  1 <= query_page q -> 1 <= query_limit opts q ->
  paginatedRooms env opts allRooms q
  = firstn (Z.to_nat (query_limit opts q))
      (skipn (Z.to_nat ((query_page q - 1) * query_limit opts q))
         (sortedRooms env opts allRooms q)).
Proof.
  intros Hp Hl. unfold paginatedRooms.
  rewrite slice_window by nia.
  do 2 f_equal. lia.
Qed.

(** The room sent keeps the fields the formatting does not set, as the
    JSON round trip leaves them. *)
Lemma formatRoom_get (room : Room) (k : string) :
  String.eqb "locked" k = false -> String.eqb "private" k = false ->
  String.eqb "maxClients" k = false -> String.eqb "elapsedTime" k = false ->
  obj_get (formatRoom env room) k = clone_visible (obj_get room k).
Proof.
  intros H1 H2 H3 H4. unfold formatRoom.
  rewrite !obj_get_set_other by assumption.
  apply obj_get_clone.
Qed.

Lemma formatRoom_maxClients (room : Room) :
  obj_get (formatRoom env room) "maxClients"
  = JStr (to_string (obj_get room "maxClients")).
Proof.
  unfold formatRoom.
  rewrite obj_get_set_other by reflexivity.
  apply obj_get_set_same.
Qed.

Lemma formatRoom_name (room : Room) (s : string) :
  name_of (formatRoom env room) = JStr s <-> name_of room = JStr s.
Proof.
  unfold name_of. rewrite formatRoom_get by reflexivity.
  destruct (obj_get room "name"); simpl; split; congruence.
Qed.

Lemma formatRoom_clients (room : Room) (c : Z) :
  clients_of room = JNum c -> clients_of (formatRoom env room) = JNum c.
Proof.
  unfold clients_of. intros H. rewrite formatRoom_get by reflexivity.
  now rewrite H.
Qed.

End ListEndpoint.



(** C5. The rooms sent by GET / have passed the configured type filters,
    with or without an ad-hoc [filter] parameter and before sorting and
    pagination: each comes from a room of [applyRoomFilters]; with a
    non-empty [includeTypes] its type name is a member of it, with a
    non-empty [excludeTypes] its type name is not a member of it; and
    [applyRoomFilters] applies the inclusion first, the exclusion second. *)
Theorem type_filters_applied :
  forall (env : Env) (opts : MonitorOptions.t) (allRooms : list Room)
         (cpu memory : JsValue) (q : ListQuery.t) (fo : FilterOptions.t)
         (room : Room),
    MonitorOptions.filter opts = Some fo ->
    In room (rooms (listResponse env opts allRooms q cpu memory)) ->
    (exists src, In src (applyRoomFilters allRooms (Some fo))
                 /\ room = formatRoom env src)
    /\ (forall inc, FilterOptions.includeTypes fo = Some inc -> inc <> [] ->
                    exists s, name_of room = JStr s /\ In s inc)
    /\ (forall exc, FilterOptions.excludeTypes fo = Some exc -> exc <> [] ->
                    forall s, name_of room = JStr s -> ~ In s exc)
    /\ (forall inc exc,
           FilterOptions.includeTypes fo = Some inc -> inc <> [] ->
           FilterOptions.excludeTypes fo = Some exc -> exc <> [] ->
           applyRoomFilters allRooms (Some fo)
           = List.filter (fun r => negb (includes exc (name_of r)))
               (List.filter (fun r => includes inc (name_of r)) allRooms)).
Proof.
  intros env opts allRooms cpu memory q fo room Hfo Hin.
  cbn [rooms listResponse] in Hin.
  apply in_map_iff in Hin. destruct Hin as (src & <- & Hsrc).
  apply paginated_filtered in Hsrc. rewrite Hfo in Hsrc.
  split; [now exists src|].
  split; [|split].
  - intros inc Hinc Hne.
    destruct (applyRoomFilters_included allRooms fo inc src Hinc Hne Hsrc)
      as (s & Hs & Hmem).
    exists s. split; [now apply formatRoom_name | assumption].
  - intros exc Hexc Hne s Hs.
    apply formatRoom_name in Hs.
    exact (applyRoomFilters_not_excluded allRooms fo exc src Hexc Hne Hsrc s Hs).
  - intros inc exc Hinc Hi Hexc He. unfold applyRoomFilters.
    rewrite Hinc, Hexc.
    now rewrite (nonempty_length inc Hi), (nonempty_length exc He).
Qed.

Lemma type_filters_applied_witness :
  let q := list_query None None None None in
  let r := listResponse sample_env sample_opts sample_rooms q (JNum 12) (JNum 34) in
  let room := formatRoom sample_env (sample_room "b" "GameRoom" 5) in
  In room (rooms r)
  /\ (exists s, name_of room = JStr s /\ In s ["GameRoom"])
  /\ (forall s, name_of room = JStr s -> ~ In s ["LobbyRoom"]).
Proof.
  intros q r room.
  assert (Hin : In room (rooms r)) by (vm_compute; tauto).
  destruct (type_filters_applied sample_env sample_opts sample_rooms
              (JNum 12) (JNum 34) q
              {| FilterOptions.includeTypes := Some ["GameRoom"];
                 FilterOptions.excludeTypes := Some ["LobbyRoom"] |}
              room eq_refl Hin) as (_ & Hinc & Hexc & _).
  split; [exact Hin|]. split.
  - apply (Hinc ["GameRoom"] eq_refl). discriminate.
  - apply (Hexc ["LobbyRoom"] eq_refl). discriminate.
Defined.

Lemma add_numbers (a b : Z) : add (JNum a) (JNum b) = JNum (a + b).
Proof. reflexivity. Qed.

Lemma count_connections_numbers (page_rooms : list Room) :
  forall counts,
    map clients_of page_rooms = map JNum counts ->
    count_connections page_rooms = JNum (sum_Z counts).
Proof.
  unfold count_connections.
  assert (G : forall rs counts start,
             map clients_of rs = map JNum counts ->
             fold_left (fun connections room =>
                          add connections (obj_get room "clients"))
               rs (JNum start)
             = JNum (start + sum_Z counts)).
  { induction rs as [|room rs IH]; intros [|c counts] start H;
      simpl in H; try discriminate.
    - simpl. f_equal. lia.
    - injection H as Hc Hrest. simpl.
      unfold clients_of in Hc. rewrite Hc, add_numbers.
      rewrite (IH counts (start + c) Hrest). f_equal. lia. }
  intros counts H. now rewrite (G page_rooms counts 0 H).
Qed.

(** C8. On GET / the [connections] of the response is the sum of the
    [clients] of the rooms of the page sent, the rooms left after
    pagination, and of no other room: it is accumulated with [+] along the
    page, which for rooms with numeric [clients] is the sum of these
    numbers. *)
Theorem connections_sum_over_page :
  forall (env : Env) (opts : MonitorOptions.t) (allRooms : list Room)
         (cpu memory : JsValue) (q : ListQuery.t),
    let r := listResponse env opts allRooms q cpu memory in
    let page_rooms := paginatedRooms env opts allRooms q in
    rooms r = map (formatRoom env) page_rooms
    /\ connections r
       = fold_left (fun sum room => add sum (clients_of room)) page_rooms (JNum 0)
    /\ (forall counts,
           map clients_of page_rooms = map JNum counts ->
           map clients_of (rooms r) = map JNum counts
           /\ connections r = JNum (sum_Z counts)).
Proof.
  intros env opts allRooms cpu memory q r page_rooms. subst r page_rooms.
  cbn [rooms connections listResponse].
  split; [reflexivity|]. split; [reflexivity|].
  intros counts H. split.
  - rewrite map_map. rewrite <- H.
    revert counts H.
    induction (paginatedRooms env opts allRooms q) as [|room rs IH];
      intros [|c counts] H; simpl in H; try discriminate; [reflexivity|].
    injection H as Hc Hrest. simpl.
    rewrite (formatRoom_clients env room c Hc), Hc.
    f_equal. now apply IH with counts.
  - now apply count_connections_numbers.
Qed.

Lemma connections_sum_over_page_witness :
  let q := list_query (Some "clients") (Some "desc") None (Some "2") in
  let r := listResponse sample_env sample_opts sample_rooms q (JNum 12) (JNum 34) in
  map clients_of (rooms r) = map JNum [5; 2]
  /\ connections r = JNum 7
  /\ map clients_of (filteredRooms sample_env sample_opts sample_rooms q)
     = map JNum [2; 5; 1].
Proof.
  intros q r.
  destruct (connections_sum_over_page sample_env sample_opts sample_rooms
              (JNum 12) (JNum 34) q) as (_ & _ & Hsum).
  destruct (Hsum [5; 2] eq_refl) as [Hrooms Hconn].
  split; [exact Hrooms|]. split; [exact Hconn | reflexivity].
Defined.

(** C9, as the router has it.  Every room sent by GET / is the formatted
    copy of a room of the registry; its [maxClients] is a string, the text
    of the registry's [maxClients], and its [clients] is the registry's
    whenever that is a number. *)
Theorem maxClients_is_text :
  forall (env : Env) (opts : MonitorOptions.t) (allRooms : list Room)
         (cpu memory : JsValue) (q : ListQuery.t) (room : Room),
    In room (rooms (listResponse env opts allRooms q cpu memory)) ->
    exists src,
      In src allRooms
      /\ room = formatRoom env src
      /\ obj_get room "maxClients" = JStr (to_string (obj_get src "maxClients"))
      /\ (forall n, obj_get src "maxClients" = JNum n ->
                    obj_get room "maxClients" = JStr (string_of_Z n))
      /\ (forall c, clients_of src = JNum c -> clients_of room = JNum c).
Proof.
  intros env opts allRooms cpu memory q room Hin.
  cbn [rooms listResponse] in Hin.
  apply in_map_iff in Hin. destruct Hin as (src & <- & Hsrc).
  apply paginated_filtered, applyRoomFilters_incl in Hsrc.
  exists src. split; [assumption|]. split; [reflexivity|].
  split; [apply formatRoom_maxClients|]. split.
  - intros n Hn. now rewrite formatRoom_maxClients, Hn.
  - apply formatRoom_clients.
Qed.

Lemma maxClients_is_text_witness :
  let q := list_query None None None None in
  let room := formatRoom sample_env (sample_room "a" "GameRoom" 2) in
  exists src,
    In src sample_rooms
    /\ room = formatRoom sample_env src
    /\ obj_get room "maxClients" = JStr (to_string (obj_get src "maxClients"))
    /\ (forall n, obj_get src "maxClients" = JNum n ->
                  obj_get room "maxClients" = JStr (string_of_Z n))
    /\ (forall c, clients_of src = JNum c -> clients_of room = JNum c).
Proof.
  intros q room.
  apply (maxClients_is_text sample_env sample_opts sample_rooms
           (JNum 12) (JNum 34) q room).
  vm_compute. tauto.
Defined.

(** C9 as stated fails: the [maxClients] of a room sent is not a number. *)
Lemma maxClients_not_integer :
  let q := list_query None None None None in
  let r := listResponse sample_env sample_opts sample_rooms q (JNum 12) (JNum 34) in
  ~ (forall room, In room (rooms r) ->
        exists n, 0 <= n /\ obj_get room "maxClients" = JNum n).
Proof.
  intros q r H.
  destruct (H (formatRoom sample_env (sample_room "a" "GameRoom" 2)))
    as (n & _ & Hn).
  - vm_compute. tauto.
  - vm_compute in Hn. discriminate.
Qed.

(* ================================================================== *)
(** ** The comparator of [applySorting] *)

Lemma sortCompare_desc (sort : string) (a b : Room) :
  sortCompare sort (Some "desc") a b = - sortCompare sort (Some "asc") a b.
Proof.
  unfold sortCompare. simpl.
  destruct (strict_eq _ _); [reflexivity|].
  now destruct (lt _ _).
Qed.

Lemma sortCompare_zero_sym (sort : string) (order : option string) (a b : Room) :
  sortCompare sort order a b = 0 -> sortCompare sort order b a = 0.
Proof.
  unfold sortCompare. rewrite (strict_eq_sym (sortValue sort b)).
  destruct (strict_eq _ _); [reflexivity|].
  destruct (lt (sortValue sort a) _), (is_desc order); discriminate.
Qed.

Lemma sortCompare_tie (sort : string) (order : option string) (v : JsValue)
  (x y : Room) :
  strict_eq (sortValue sort x) v = true ->
  strict_eq (sortValue sort y) v = true ->
  sortCompare sort order x y = 0.
Proof.
  intros Hx Hy. unfold sortCompare.
  rewrite (strict_eq_true _ _ Hy).
  now rewrite Hx.
Qed.

Lemma sortCompare_same (sort : string) (order : option string) (v : JsValue)
  (x e y : Room) :
  strict_eq (sortValue sort x) v = true ->
  strict_eq (sortValue sort e) v = true ->
  sortCompare sort order x y = sortCompare sort order e y.
Proof.
  intros Hx He. unfold sortCompare.
  now rewrite (strict_eq_true _ _ Hx), (strict_eq_true _ _ He).
Qed.

Lemma sortCompare_undefined (sort : string) (order : option string) (a b : Room) :
  sortValue sort a = JUndefined ->
  sortValue sort b <> JUndefined ->
  sortCompare sort order a b = (if is_desc order then -1 else 1)
  /\ sortCompare sort order b a = (if is_desc order then -1 else 1).
Proof.
  intros Ha Hb. unfold sortCompare. rewrite Ha.
  rewrite (strict_eq_sym (sortValue sort b)).
  rewrite (strict_eq_undefined _ Hb).
  rewrite lt_undefined_l, lt_undefined_r.
  now destruct (is_desc order).
Qed.

(** *** Numeric comparison values *)

Lemma consistent_on_intro {A : Type} (cmp : A -> A -> Z) (l : list A) :
  (forall x y, In x l -> In y l -> cmp x y < 0 -> ~ cmp y x < 0) ->
  (forall x y z, In x l -> In y l -> In z l ->
                 cmp x y < 0 -> cmp y z < 0 -> cmp x z < 0) ->
  consistent_on cmp l = true.
Proof.
  intros Hasym Htrans. unfold consistent_on, asymmetric_on, transitive_on.
  apply andb_true_iff. split.
  - apply forallb_forall. intros x Hx. apply forallb_forall. intros y Hy.
    destruct (cmp x y <? 0) eqn:Exy; [|reflexivity].
    destruct (cmp y x <? 0) eqn:Eyx; [|reflexivity].
    apply Z.ltb_lt in Exy, Eyx. now destruct (Hasym x y Hx Hy Exy).
  - apply forallb_forall. intros x Hx. apply forallb_forall. intros y Hy.
    apply forallb_forall. intros z Hz.
    destruct (cmp x y <? 0) eqn:Exy; [|reflexivity].
    destruct (cmp y z <? 0) eqn:Eyz; [|reflexivity].
    apply Z.ltb_lt in Exy, Eyz. simpl.
    apply Z.ltb_lt. now apply Htrans with y.
Qed.

Lemma sortCompare_numbers (sort : string) (order : option string)
  (a b : Room) (n m : Z) :
  sortValue sort a = JNum n -> sortValue sort b = JNum m ->
  sortCompare sort order a b < 0
  <-> (if is_desc order then m < n else n < m).
Proof.
  intros Ha Hb. unfold sortCompare. rewrite Ha, Hb.
  unfold strict_eq, lt. simpl.
  destruct (n =? m) eqn:E.
  - apply Z.eqb_eq in E. destruct (is_desc order); lia.
  - apply Z.eqb_neq in E.
    destruct (n <? m) eqn:L;
      [apply Z.ltb_lt in L | apply Z.ltb_ge in L];
      destruct (is_desc order); lia.
Qed.

(** Rooms whose comparison values are all numbers are ordered
    consistently, in both orders. *)
Lemma numbers_consistent (rooms : list Room) (sort : string)
  (order : option string) :
  (forall room, In room rooms -> exists n, sortValue sort room = JNum n) ->
  consistent_on (sortCompare sort order) rooms = true.
Proof.
  intros Hnum. apply consistent_on_intro.
  - intros x y Hx Hy.
    destruct (Hnum x Hx) as [n Hn]. destruct (Hnum y Hy) as [m Hm].
    rewrite (sortCompare_numbers sort order x y n m Hn Hm).
    rewrite (sortCompare_numbers sort order y x m n Hm Hn).
    destruct (is_desc order); lia.
  - intros x y z Hx Hy Hz.
    destruct (Hnum x Hx) as [n Hn]. destruct (Hnum y Hy) as [m Hm].
    destruct (Hnum z Hz) as [k Hk].
    rewrite (sortCompare_numbers sort order x y n m Hn Hm).
    rewrite (sortCompare_numbers sort order y z m k Hm Hk).
    rewrite (sortCompare_numbers sort order x z n k Hn Hk).
    destruct (is_desc order); lia.
Qed.




(** Where the comparator is not consistent the ties are not safe: under
    order desc a room without metadata, standing between two rooms of the
    same region, is below both and both are below it, and the two come out
    swapped. *)
Lemma ties_swapped_around_undefined :
  let a := sample_room "a" "GameRoom" 2 in
  let b := sample_room "b" "GameRoom" 2 in
  let u := bare_room "u" in
  consistent_on (sortCompare "metadata.region" (Some "desc")) [a; u; b] = false
  /\ applySorting [a; u; b] (Some "metadata.region") (Some "desc") = [b; u; a].
Proof. split; reflexivity. Qed.




(* ================================================================== *)
(** ** The room endpoints, GET /room and GET /room/call *)

Lemma access_is_false_spec (opts : MonitorOptions.t)
  (flag : AccessControlOptions.t -> option bool) :
  access_is_false opts flag = true <-> explicitly_false opts flag.
Proof.
  unfold access_is_false, explicitly_false. split.
  - destruct (MonitorOptions.access opts) as [a|]; [|discriminate].
    destruct (flag a) as [[|]|] eqn:E; try discriminate.
    intros _. now exists a.
  - intros (a & -> & ->). reflexivity.
Qed.

Lemma access_not_false (opts : MonitorOptions.t)
  (flag : AccessControlOptions.t -> option bool) :
  ~ explicitly_false opts flag -> access_is_false opts flag = false.
Proof.
  intros H. destruct (access_is_false opts flag) eqn:E; [|reflexivity].
  apply access_is_false_spec in E. contradiction.
Qed.

Lemma has_status_handleError (message : string) (code code' : Z) :
  has_status (handleError message code) code' <-> code = code'.
Proof.
  unfold has_status, handleError. split.
  - intros (r & H & Hs). injection H as <-. exact Hs.
  - intros <-. eexists. split; reflexivity.
Qed.

Lemma has_status_unavailable (roomId : option string) (code : Z) :
  has_status (unavailable roomId) code <-> code = 500.
Proof.
  unfold unavailable. rewrite has_status_handleError. split; congruence.
Qed.

Lemma has_status_send_json (data : JsValue) (code : Z) :
  has_status (send_json data) code <-> code = 200.
Proof.
  unfold has_status, send_json. split.
  - intros (r & H & Hs). injection H as <-. now symmetry.
  - intros ->. eexists. split; reflexivity.
Qed.

Lemma has_status_rejected (e : JsError) (code : Z) :
  ~ has_status (Rejected e) code.
Proof. intros (r & H & _). discriminate. Qed.

Section RoomEndpoints.

Variable env : Env.
Variable opts : MonitorOptions.t.

Lemma call_remote_calls (c : RemoteCall) (k : JsValue -> Outcome) :
  fst (call_remote env c k) = [c].
Proof. unfold call_remote. now destruct (remoteRoomCall env c). Qed.

Lemma call_remote_send_status (c : RemoteCall) (code : Z) :
  has_status (snd (call_remote env c send_json)) code ->
  code = 200 \/ code = 500.
Proof.
  unfold call_remote. destruct (remoteRoomCall env c); simpl.
  - rewrite has_status_send_json. auto.
  - rewrite has_status_unavailable. auto.
Qed.

Lemma roomHandler_status (q : RoomQuery.t) (code : Z) :
  access_is_false opts AccessControlOptions.allowStateInspection = false ->
  has_status (snd (roomHandler env opts q)) code ->
  code = 200 \/ code = 500.
Proof.
  unfold roomHandler. intros ->. unfold call_remote.
  destruct (remoteRoomCall env _); simpl.
  - destruct (attach_actions j "actions" _); simpl;
      [rewrite has_status_unavailable; auto|].
    destruct (attach_actions j0 "clientActions" _); simpl;
      [rewrite has_status_unavailable; auto|].
    rewrite has_status_send_json. auto.
  - rewrite has_status_unavailable. auto.
Qed.

(** A method that is neither guarded nor a custom action token goes to the
    registry as it is. *)
Lemma dispatch_plain (roomId : option string) (method : string) (args : JsValue) :
  (String.eqb method "disconnect"
   && access_is_false opts AccessControlOptions.allowRoomDisposal) = false ->
  (String.eqb method "_sendMessageToClient"
   && access_is_false opts AccessControlOptions.allowClientMessages) = false ->
  String.prefix "customAction:" method = false ->
  String.prefix "customClientAction:" method = false ->
  dispatch env opts roomId (Some method) args
  = call_remote env
      {| call_roomId := roomId; call_method := method; call_args := Some args |}
      send_json.
Proof. unfold dispatch. now intros -> -> -> ->. Qed.

End RoomEndpoints.

(** No handler reads [allowStateModification]: setting it changes neither
    the calls made nor the response. *)
Lemma access_is_false_other_flags (v : option bool) (opts : MonitorOptions.t) :
  access_is_false (with_state_modification v opts)
    AccessControlOptions.allowStateInspection
  = access_is_false opts AccessControlOptions.allowStateInspection
  /\ access_is_false (with_state_modification v opts)
       AccessControlOptions.allowClientMessages
     = access_is_false opts AccessControlOptions.allowClientMessages
  /\ access_is_false (with_state_modification v opts)
       AccessControlOptions.allowRoomDisposal
     = access_is_false opts AccessControlOptions.allowRoomDisposal.
Proof.
  unfold access_is_false, with_state_modification. simpl.
  destruct (MonitorOptions.access opts); repeat split.
Qed.

Lemma state_modification_flag_unused (env : Env) (v : option bool)
  (opts : MonitorOptions.t) :
  (forall q, callHandler env (with_state_modification v opts) q
             = callHandler env opts q)
  /\ (forall q, roomHandler env (with_state_modification v opts) q
                = roomHandler env opts q).
Proof.
  destruct (access_is_false_other_flags v opts) as (Hi & Hm & Hd).
  split; intros q.
  - unfold callHandler, dispatch. now rewrite Hm, Hd.
  - unfold roomHandler. now rewrite Hi.
Qed.

(** C1, what the router does.  With [allowStateModification] set to false
    a call of [_updateRoomState] is still handed to the registry, and the
    response is not a 403. *)
Theorem state_modification_not_guarded :
  forall (env : Env) (opts : MonitorOptions.t) (q : CallQuery.t)
         (args : JsValue),
    explicitly_false opts AccessControlOptions.allowStateModification ->
    CallQuery.method q = Some "_updateRoomState" ->
    JSON_parse env (call_args_text q) = Some args ->
    fst (callHandler env opts q)
    = [ {| call_roomId := CallQuery.roomId q;
           call_method := "_updateRoomState";
           call_args := Some args |} ]
    /\ ~ has_status (snd (callHandler env opts q)) 403.
Proof.
  intros env opts q args _ Hm Hp. unfold callHandler. rewrite Hp, Hm.
  rewrite dispatch_plain by reflexivity.
  split; [apply call_remote_calls|].
  intros H. apply call_remote_send_status in H. lia.
Qed.

Lemma state_modification_not_guarded_witness :
  let q := call_query "a" "_updateRoomState" (Some "[1]") in
  explicitly_false sample_opts AccessControlOptions.allowStateModification
  /\ fst (callHandler sample_env sample_opts q)
     = [ {| call_roomId := Some "a"; call_method := "_updateRoomState";
            call_args := Some (JArr [JNum 1]) |} ]
  /\ ~ has_status (snd (callHandler sample_env sample_opts q)) 403.
Proof.
  intros q.
  assert (Hoff : explicitly_false sample_opts
                   AccessControlOptions.allowStateModification).
  { eexists. split; reflexivity. }
  split; [exact Hoff|].
  apply (state_modification_not_guarded sample_env sample_opts q
           (JArr [JNum 1]) Hoff); reflexivity.
Defined.

(** C6, what the router does.  When the [args] text of GET /room/call does
    not parse, the SyntaxError is thrown before the [try]: the handler
    sends no response and makes no remote call. *)
Theorem malformed_args_escape :
  forall (env : Env) (opts : MonitorOptions.t) (q : CallQuery.t),
    JSON_parse env (call_args_text q) = None ->
    callHandler env opts q = ([], Rejected SyntaxError)
    /\ forall code, ~ has_status (snd (callHandler env opts q)) code.
Proof.
  intros env opts q Hp. unfold callHandler. rewrite Hp.
  split; [reflexivity|]. intros code. apply has_status_rejected.
Qed.

Lemma malformed_args_escape_witness :
  callHandler sample_env sample_opts (call_query "a" "disconnect" (Some "{"))
  = ([], Rejected SyntaxError)
  /\ forall code,
       ~ has_status
           (snd (callHandler sample_env sample_opts
                   (call_query "a" "disconnect" (Some "{")))) code.
Proof.
  apply (malformed_args_escape sample_env sample_opts). reflexivity.
Defined.

(** The list endpoint does catch the same failure: a [filter] text that
    does not parse leaves the rooms as they are. *)
Lemma malformed_filter_ignored (env : Env) (text : string) (l : list Room) :
  JSON_parse env text = None -> applyQueryFilter env (Some text) l = l.
Proof.
  intros Hp. unfold applyQueryFilter, or_text.
  destruct (String.eqb text EmptyString); [reflexivity|].
  now rewrite Hp.
Qed.

Lemma find_handler_unregistered (actions : option (list CustomAction.t))
  (id : string) :
  registered actions id = false -> find_handler actions id = None.
Proof.
  unfold registered, find_handler. destruct actions as [l|]; [|reflexivity].
  intros H.
  assert (Hnone : find (fun a => String.eqb (CustomAction.id a) id) l = None).
  { induction l as [|a l IH]; [reflexivity|].
    simpl in H |- *. apply orb_false_iff in H. destruct H as [Ha Hl].
    rewrite Ha. now apply IH. }
  now rewrite Hnone.
Qed.

Lemma split_on_first (c : ascii) (s rest : string) :
  contains_char c s = false ->
  split_on c (String.append s (String c rest)) = s :: split_on c rest.
Proof.
  induction s as [|d s IH]; simpl; intros H.
  - now rewrite Ascii.eqb_refl.
  - apply orb_false_iff in H. destruct H as [Hd Hs].
    rewrite Hd, (IH Hs). reflexivity.
Qed.

Lemma prefix_append (p s : string) : String.prefix p (String.append p s) = true.
Proof.
  induction p as [|c p IH]; simpl.
  - now destruct s.
  - destruct (ascii_dec c c); [assumption | congruence].
Qed.

Lemma drop_append (p s : string) : drop (String.length p) (String.append p s) = s.
Proof. induction p as [|c p IH]; simpl; auto. Qed.

(** Removing a pattern the text starts with leaves the rest. *)
Lemma replace_prefix (p s : string) :
  replace (String.append p s) p EmptyString = s.
Proof.
  unfold replace.
  assert (E : forall b t,
             replace_from p EmptyString b t
             = if String.prefix p t
               then String.append
                      (expand_replacement EmptyString p
                         (string_of_list_ascii (rev (list_ascii_of_string b)))
                         (drop (String.length p) t))
                      (drop (String.length p) t)
               else match t with
                    | EmptyString => EmptyString
                    | String c rest =>
                        String c (replace_from p EmptyString (String c b) rest)
                    end).
  { intros b t. now destruct t. }
  rewrite E, prefix_append, drop_append. reflexivity.
Qed.

(** A request whose dispatch answers without a call, whatever its
    arguments: nothing reaches the registry, and the answer is sent as soon
    as [args] parses. *)
Lemma callHandler_answer (env : Env) (opts : MonitorOptions.t)
  (q : CallQuery.t) (answer : Outcome) :
  (forall args,
      dispatch env opts (CallQuery.roomId q) (CallQuery.method q) args
      = ([], answer)) ->
  fst (callHandler env opts q) = []
  /\ forall args,
       JSON_parse env (call_args_text q) = Some args ->
       callHandler env opts q = ([], answer).
Proof.
  intros Hd. unfold callHandler.
  destruct (JSON_parse env (call_args_text q)) as [args|].
  - rewrite Hd. split; [reflexivity|]. intros args' _. reflexivity.
  - split; [reflexivity|]. discriminate.
Qed.

(** C7, as the router has it.  A [customAction:<id>] whose id is not the
    id of a registered room action, and a [customClientAction:<id>:<clientId>]
    whose id is not the id of a registered client action, never reach the
    registry; and when the [args] of the request parse, the response is the
    404 with the message naming the id. *)
Theorem unknown_custom_action_is_404 :
  forall (env : Env) (opts : MonitorOptions.t) (q : CallQuery.t) (id : string),
    (CallQuery.method q = Some (String.append "customAction:" id) ->
     registered (room_actions opts) id = false ->
     fst (callHandler env opts q) = []
     /\ forall args,
          JSON_parse env (call_args_text q) = Some args ->
          callHandler env opts q
          = ([], handleError
                   (String.append "Custom action "
                      (String.append id " not found")) 404))
    /\ (forall clientId,
           contains_char ":" id = false ->
           CallQuery.method q
           = Some (String.append "customClientAction:"
                     (String.append id (String ":" clientId))) ->
           registered (client_actions opts) id = false ->
           fst (callHandler env opts q) = []
           /\ forall args,
                JSON_parse env (call_args_text q) = Some args ->
                callHandler env opts q
                = ([], handleError
                         (String.append "Custom client action "
                            (String.append id " not found")) 404)).
Proof.
  intros env opts q id. split.
  - intros Hm Hr. apply callHandler_answer.
    intros args. rewrite Hm. unfold dispatch.
    change (String.eqb (String.append "customAction:" id) "disconnect")
      with false.
    change (String.eqb (String.append "customAction:" id)
              "_sendMessageToClient") with false.
    rewrite prefix_append.
    cbn [andb]. rewrite replace_prefix.
    now rewrite (find_handler_unregistered _ _ Hr).
  - intros clientId Hc Hm Hr. apply callHandler_answer.
    intros args. rewrite Hm. unfold dispatch.
    set (rest := String.append id (String ":" clientId)).
    change (String.eqb (String.append "customClientAction:" rest) "disconnect")
      with false.
    change (String.eqb (String.append "customClientAction:" rest)
              "_sendMessageToClient") with false.
    change (String.prefix "customAction:"
              (String.append "customClientAction:" rest)) with false.
    rewrite prefix_append.
    cbn [andb]. rewrite replace_prefix. unfold rest.
    rewrite (split_on_first ":" id clientId Hc).
    cbn [nth_error].
    now rewrite (find_handler_unregistered _ _ Hr).
Qed.

Lemma unknown_custom_action_is_404_witness :
  callHandler sample_env sample_opts (call_query "a" "customAction:nope" None)
  = ([], handleError "Custom action nope not found" 404)
  /\ callHandler sample_env sample_opts
       (call_query "a" "customClientAction:kick:c1" (Some "[1]"))
     = ([], handleError "Custom client action kick not found" 404).
Proof.
  split.
  - destruct (unknown_custom_action_is_404 sample_env sample_opts
                (call_query "a" "customAction:nope" None) "nope")
      as [Hroom _].
    destruct (Hroom eq_refl eq_refl) as [_ H404].
    exact (H404 (JArr []) eq_refl).
  - destruct (unknown_custom_action_is_404 sample_env sample_opts
                (call_query "a" "customClientAction:kick:c1" (Some "[1]"))
                "kick")
      as [_ Hclient].
    destruct (Hclient "c1" eq_refl eq_refl eq_refl) as [_ H404].
    exact (H404 (JArr [JNum 1]) eq_refl).
Defined.

(** C7 as stated fails: with an [args] text that does not parse, the
    request for an unregistered action gets no response at all, so no
    404. *)
Lemma unknown_action_malformed_args :
  let q := call_query "a" "customAction:nope" (Some "{") in
  registered (room_actions sample_opts) "nope" = false
  /\ callHandler sample_env sample_opts q = ([], Rejected SyntaxError)
  /\ ~ has_status (snd (callHandler sample_env sample_opts q)) 404.
Proof.
  repeat split. apply has_status_rejected.
Qed.

(** C10, as the router has it.  The guards are fail-open.  GET /room
    answers 403 exactly when [allowStateInspection] is explicitly false,
    and otherwise asks the registry for the inspect data.  On GET
    /room/call a [disconnect] or a [_sendMessageToClient] is answered 403
    only when its flag is explicitly false; when the [args] of the
    request parse, it is refused with 403 if the flag is explicitly false
    and handed to the registry otherwise: with no access object, with the
    flag left out, or with the flag true. *)
Theorem access_guard_fail_open :
  forall (env : Env) (opts : MonitorOptions.t),
    (forall q : RoomQuery.t,
        (has_status (snd (roomHandler env opts q)) 403
         <-> explicitly_false opts AccessControlOptions.allowStateInspection)
        /\ (explicitly_false opts AccessControlOptions.allowStateInspection ->
            fst (roomHandler env opts q) = [])
        /\ (~ explicitly_false opts AccessControlOptions.allowStateInspection ->
            fst (roomHandler env opts q)
            = [ {| call_roomId := RoomQuery.roomId q;
                   call_method := "getInspectData";
                   call_args := None |} ]))
    /\ (forall (q : CallQuery.t) (method message : string)
               (flag : AccessControlOptions.t -> option bool),
           guarded_call method flag message ->
           CallQuery.method q = Some method ->
           (has_status (snd (callHandler env opts q)) 403 ->
            explicitly_false opts flag)
           /\ forall args,
                JSON_parse env (call_args_text q) = Some args ->
                (explicitly_false opts flag ->
                 callHandler env opts q = ([], handleError message 403))
                /\ (~ explicitly_false opts flag ->
                    fst (callHandler env opts q)
                    = [ {| call_roomId := CallQuery.roomId q;
                           call_method := method;
                           call_args := Some args |} ]
                    /\ ~ has_status (snd (callHandler env opts q)) 403)).
Proof.
  intros env opts. split.
  - intros q.
    destruct (access_is_false opts AccessControlOptions.allowStateInspection)
      eqn:E.
    + assert (Hx := proj1 (access_is_false_spec _ _) E).
      unfold roomHandler. rewrite E. simpl.
      split; [|split].
      * rewrite has_status_handleError. tauto.
      * reflexivity.
      * contradiction.
    + assert (Hx : ~ explicitly_false opts
                     AccessControlOptions.allowStateInspection).
      { intros H. apply access_is_false_spec in H. congruence. }
      split; [|split].
      * split; [|contradiction].
        intros H. apply (roomHandler_status env opts q 403 E) in H. lia.
      * contradiction.
      * intros _. unfold roomHandler. rewrite E. apply call_remote_calls.
  - intros q method message flag Hg Hm.
    assert (Hd : forall args,
               (explicitly_false opts flag ->
                dispatch env opts (CallQuery.roomId q) (Some method) args
                = ([], handleError message 403))
               /\ (~ explicitly_false opts flag ->
                   dispatch env opts (CallQuery.roomId q) (Some method) args
                   = call_remote env
                       {| call_roomId := CallQuery.roomId q;
                          call_method := method;
                          call_args := Some args |} send_json)).
    { intros args. split.
      - intros H. apply access_is_false_spec in H.
        destruct Hg; unfold dispatch; cbn [String.eqb Ascii.eqb Bool.eqb andb];
          now rewrite H.
      - intros H. apply access_not_false in H.
        destruct Hg; apply dispatch_plain;
          cbn [String.eqb Ascii.eqb Bool.eqb andb]; try rewrite H; reflexivity. }
    unfold callHandler. rewrite Hm.
    destruct (JSON_parse env (call_args_text q)) as [args|] eqn:Hp.
    + destruct (Hd args) as [Hoff Hon]. split.
      * intros H403.
        destruct (access_is_false opts flag) eqn:E;
          [now apply access_is_false_spec|].
        assert (Hx : ~ explicitly_false opts flag).
        { intros H. apply access_is_false_spec in H. congruence. }
        rewrite (Hon Hx) in H403.
        apply call_remote_send_status in H403. lia.
      * intros args' Hargs. injection Hargs as <-. split.
        -- exact Hoff.
        -- intros Hx. rewrite (Hon Hx).
           split; [apply call_remote_calls|].
           intros H. apply call_remote_send_status in H. lia.
    + split; [|discriminate].
      intros H. now apply has_status_rejected in H.
Qed.

Lemma access_guard_fail_open_witness :
  let q := call_query "a" "disconnect" None in
  ~ explicitly_false sample_opts AccessControlOptions.allowRoomDisposal
  /\ fst (callHandler sample_env sample_opts q)
     = [ {| call_roomId := Some "a"; call_method := "disconnect";
            call_args := Some (JArr []) |} ]
  /\ ~ has_status (snd (callHandler sample_env sample_opts q)) 403.
Proof.
  intros q.
  assert (Hopen : ~ explicitly_false sample_opts
                     AccessControlOptions.allowRoomDisposal).
  { intros (a & Ha & Hf). injection Ha as <-. discriminate. }
  split; [exact Hopen|].
  destruct (access_guard_fail_open sample_env sample_opts) as [_ Hcall].
  destruct (Hcall q "disconnect" "Room disposal is not allowed"
              AccessControlOptions.allowRoomDisposal guard_disconnect eq_refl)
    as [_ Hargs].
  destruct (Hargs (JArr []) eq_refl) as [_ Hon].
  exact (Hon Hopen).
Defined.

(** C10 as stated fails: with no flag set against it, a [disconnect] whose
    [args] text does not parse is not handed to the registry. *)
Lemma disconnect_malformed_args_not_dispatched :
  let q := call_query "a" "disconnect" (Some "{") in
  ~ explicitly_false sample_opts AccessControlOptions.allowRoomDisposal
  /\ callHandler sample_env sample_opts q = ([], Rejected SyntaxError).
Proof.
  split; [|reflexivity].
  intros (a & Ha & Hf). injection Ha as <-. discriminate.
Qed.

(* ================================================================== *)
(** ** The scenarios of the specification *)

(** Three game rooms with 2, 5 and 1 clients, sorted by clients, order
    desc, limit 2: the page has the rooms with 5 and 2 clients, the total
    is 3 and there are 2 pages. *)
Example scenario_sorted_page :
  let r := listResponse sample_env sample_opts sample_rooms
             (list_query (Some "clients") (Some "desc") None (Some "2"))
             (JNum 12) (JNum 34) in
  map clients_of (rooms r) = [JNum 5; JNum 2]
  /\ total (pagination r) = 3
  /\ pages (pagination r) = 2.
Proof. repeat split. Qed.

(** With room disposal switched off, [disconnect] is refused. *)
Example scenario_disposal_refused :
  callHandler sample_env strict_opts (call_query "a" "disconnect" None)
  = ([], Sent {| status := 403;
                 body := ErrorBody "Room disposal is not allowed" |}).
Proof. reflexivity. Qed.

(** A registered room action calls its handler with the arguments of the
    request, and the result goes back as it is. *)
Example scenario_custom_action :
  callHandler sample_env sample_opts (call_query "a" "customAction:restart" None)
  = ([ {| call_roomId := Some "a"; call_method := "restartRoom";
          call_args := Some (JArr []) |} ],
     Sent {| status := 200; body := JsonBody (JBool true) |}).
Proof. reflexivity. Qed.

(** A disposed room answers neither the inspection nor a call. *)
Example scenario_room_gone :
  snd (roomHandler gone_env sample_opts {| RoomQuery.roomId := Some "X" |})
  = Sent {| status := 500;
            body := ErrorBody
                      "@colyseus/monitor: room X is not available anymore." |}
  /\ snd (callHandler gone_env sample_opts (call_query "X" "lock" None))
     = Sent {| status := 500;
               body := ErrorBody
                         "@colyseus/monitor: room X is not available anymore." |}.
Proof. split; reflexivity. Qed.

(* ================================================================== *)
(** ** More on the type filter *)

Lemma filter_filter_and {A : Type} (f g : A -> bool) (l : list A) :
  List.filter g (List.filter f l) = List.filter (fun x => f x && g x) l.
Proof.
  induction l as [|a l IH]; [reflexivity|].
  simpl. destruct (f a); simpl; [destruct (g a)|]; now rewrite IH.
Qed.

Lemma filter_all {A : Type} (f : A -> bool) (l : list A) :
  (forall x, In x l -> f x = true) -> List.filter f l = l.
Proof.
  induction l as [|a l IH]; intros H; [reflexivity|].
  simpl. rewrite (H a (or_introl eq_refl)). f_equal.
  apply IH. intros x Hx. apply H. now right.
Qed.

Lemma filter_same {A : Type} (f : A -> bool) (l : list A) :
  List.filter f (List.filter f l) = List.filter f l.
Proof.
  apply filter_all. intros x Hx. apply filter_In in Hx. now destruct Hx.
Qed.

Lemma has_types_length (types : list string) :
  has_types (Some types) = (0 <? List.length types)%nat.
Proof. now destruct types. Qed.

Lemma applyRoomFilters_filter (rooms : list Room)
  (filterOptions : option FilterOptions.t) :
  applyRoomFilters rooms filterOptions
  = List.filter (room_allowed filterOptions) rooms.
Proof.
  unfold applyRoomFilters, room_allowed.
  destruct filterOptions as [fo|].
  - destruct (FilterOptions.includeTypes fo) as [inc|],
             (FilterOptions.excludeTypes fo) as [exc|];
      rewrite ?has_types_length;
      try destruct (0 <? List.length inc)%nat;
      try destruct (0 <? List.length exc)%nat;
      simpl; rewrite ?filter_filter_and;
      try (apply filter_ext; intros room; unfold name_of;
           now rewrite ?andb_true_r);
      symmetry; now apply filter_all.
  - symmetry. now apply filter_all.
Qed.

(** X1. The two passes of [applyRoomFilters] are one filter that keeps
    the order of the rooms: a room stays when its type name is in
    [includeTypes] (if that list has types) and not in [excludeTypes] (if
    that list has types).  A list that is absent or empty does not filter,
    a type in both lists is hidden, and a room whose name is not a string
    passes the exclusion but no inclusion. *)
Theorem applyRoomFilters_one_pass :
  forall (rooms : list Room) (filterOptions : option FilterOptions.t),
    applyRoomFilters rooms filterOptions
    = List.filter (room_allowed filterOptions) rooms
    /\ (forall room,
           In room (applyRoomFilters rooms filterOptions) <->
           In room rooms /\
           forall fo, filterOptions = Some fo ->
             (forall inc, FilterOptions.includeTypes fo = Some inc ->
                          inc <> [] ->
                          exists s, name_of room = JStr s /\ In s inc)
             /\ (forall exc s, FilterOptions.excludeTypes fo = Some exc ->
                               name_of room = JStr s -> ~ In s exc)).
Proof.
  intros rooms filterOptions. split; [apply applyRoomFilters_filter|].
  intros room. rewrite applyRoomFilters_filter, filter_In.
  apply and_iff_compat_l. unfold room_allowed.
  destruct filterOptions as [fo|].
  - rewrite andb_true_iff, orb_true_iff, !negb_true_iff, andb_false_iff.
    split.
    + intros [Hinc Hexc] fo' E. injection E as <-. split.
      * intros inc Ei Hne. rewrite Ei in Hinc.
        destruct Hinc as [H|H].
        -- destruct inc; [contradiction | discriminate].
        -- now apply includes_spec.
      * intros exc s Ee Hs Hin. rewrite Ee in Hexc.
        destruct Hexc as [H|H].
        -- destruct exc; [contradiction | discriminate].
        -- simpl in H.
           assert (includes exc (name_of room) = true)
             by (apply includes_spec; now exists s).
           congruence.
    + intros H. destruct (H fo eq_refl) as [Hinc Hexc]. split.
      * destruct (FilterOptions.includeTypes fo) as [[|t inc]|];
          [now left | right | now left].
        simpl. apply includes_spec. apply (Hinc (t :: inc) eq_refl).
        discriminate.
      * destruct (FilterOptions.excludeTypes fo) as [exc|]; [|now left].
        right. simpl.
        destruct (includes exc (name_of room)) eqn:E; [|reflexivity].
        apply includes_spec in E. destruct E as (s & Hs & Hin).
        now destruct (Hexc exc s eq_refl Hs).
  - split; [discriminate | reflexivity].
Qed.

(** X2. Filtering by type twice is filtering once. *)
Theorem applyRoomFilters_idempotent :
  forall (rooms : list Room) (filterOptions : option FilterOptions.t),
    applyRoomFilters (applyRoomFilters rooms filterOptions) filterOptions
    = applyRoomFilters rooms filterOptions.
Proof.
  intros rooms filterOptions.
  rewrite !applyRoomFilters_filter. apply filter_same.
Qed.

Lemma applyRoomFilters_one_pass_witness :
  In (sample_room "a" "GameRoom" 2)
     (applyRoomFilters sample_rooms (MonitorOptions.filter sample_opts))
  /\ ~ In (bare_room "l")
         (applyRoomFilters sample_rooms (MonitorOptions.filter sample_opts)).
Proof.
  destruct (applyRoomFilters_one_pass sample_rooms
              (MonitorOptions.filter sample_opts)) as [_ Hiff].
  split.
  - apply Hiff. split; [now left|].
    intros fo E. injection E as <-. split.
    + intros inc Ei _. injection Ei as <-.
      exists "GameRoom". split; [reflexivity | now left].
    + intros exc s Ee Hs. injection Ee as <-. injection Hs as <-.
      intros [F|[]]. discriminate.
  - intros Hin. apply Hiff in Hin. destruct Hin as [_ H].
    destruct (H _ eq_refl) as [Hinc _].
    destruct (Hinc ["GameRoom"] eq_refl ltac:(discriminate))
      as (s & Hs & [<-|[]]).
    discriminate.
Defined.

(* ================================================================== *)
(** ** More on the sort *)

Section ArraySortMore.

Context {A : Type}.
Variable cmp : A -> A -> Z.

Lemma array_sort_ordered (l : list A) :
  consistent_on cmp l = true -> ordered_by cmp (array_sort cmp l).
Proof.
  intros Hc. unfold ordered_by, array_sort.
  apply sort_from_sorted; [|constructor].
  apply (consistent_inserts_ok cmp l Hc); [intros e [] | apply incl_refl].
Qed.

Lemma sort_insert_last (x : A) (acc : list A) :
  (forall e, In e acc -> ~ cmp x e < 0) ->
  sort_insert cmp x acc = acc ++ [x].
Proof.
  induction acc as [|y acc IH]; intros H; [reflexivity|].
  simpl. destruct (cmp x y <? 0) eqn:E.
  - apply Z.ltb_lt in E. now destruct (H y (or_introl eq_refl)).
  - f_equal. apply IH. intros e He. apply H. now right.
Qed.

Lemma StronglySorted_app_inv (R : A -> A -> Prop) (l1 l2 : list A) :
  StronglySorted R (l1 ++ l2) ->
  forall a b, In a l1 -> In b l2 -> R a b.
Proof.
  induction l1 as [|x l1 IH]; intros Hs a b Ha Hb; [destruct Ha|].
  simpl in Hs. inversion Hs as [|? ? Hs' Hall]; subst.
  destruct Ha as [<-|Ha].
  - rewrite Forall_forall in Hall. apply Hall, in_or_app. now right.
  - now apply IH.
Qed.

(** A list that is ordered already comes out of the sort as it is. *)
Lemma sort_from_ordered (rest : list A) :
  forall acc,
    ordered_by cmp (acc ++ rest) -> sort_from cmp acc rest = acc ++ rest.
Proof.
  induction rest as [|x rest IH]; intros acc Hs.
  - simpl. now rewrite app_nil_r.
  - change (sort_from cmp acc (x :: rest))
      with (sort_from cmp (sort_insert cmp x acc) rest).
    rewrite sort_insert_last.
    + rewrite IH; rewrite <- app_assoc; [reflexivity | exact Hs].
    + intros e He.
      apply (StronglySorted_app_inv _ acc (x :: rest) Hs e x He).
      now left.
Qed.

Lemma array_sort_fixed (l : list A) :
  ordered_by cmp l -> array_sort cmp l = l.
Proof. intros H. apply (sort_from_ordered l [] H). Qed.

Lemma array_sort_ext (cmp' : A -> A -> Z) (l : list A) :
  (forall x y, cmp x y = cmp' x y) -> array_sort cmp l = array_sort cmp' l.
Proof.
  intros E. unfold array_sort, sort_from.
  generalize (@nil A) as acc.
  induction l as [|x l IH]; intros acc; [reflexivity|].
  simpl. rewrite IH. f_equal.
  induction acc as [|y acc IHa]; [reflexivity|].
  simpl. rewrite E. destruct (cmp' x y <? 0); [reflexivity | now rewrite IHa].
Qed.

End ArraySortMore.

(** X3. [applySorting] only reorders: whatever the key and the order,
    its result has the rooms of its input, each as many times. *)
Theorem applySorting_keeps_rooms :
  forall (rooms : list Room) (sort order : option string),
    Permutation (applySorting rooms sort order) rooms
    /\ List.length (applySorting rooms sort order) = List.length rooms
    /\ (forall room, In room (applySorting rooms sort order) <-> In room rooms).
Proof.
  intros rooms sort order.
  pose proof (applySorting_perm rooms sort order) as Hp.
  split; [exact Hp|]. split; [now apply Permutation_length|].
  intros room. split; apply Permutation_in;
    [exact Hp | now apply Permutation_sym].
Qed.



Lemma StronglySorted_weaken {A : Type} (R R' : A -> A -> Prop) (l : list A) :
  (forall a b, In a l -> In b l -> R a b -> R' a b) ->
  StronglySorted R l -> StronglySorted R' l.
Proof.
  intros H Hs. induction Hs as [|a l Hs IH Hall]; constructor.
  - apply IH. intros x y Hx Hy. apply H; now right.
  - rewrite Forall_forall in *. intros b Hb.
    apply H; [now left | now right | now apply Hall].
Qed.

(** X5. Sorting on a key whose values are numbers in all the rooms puts
    the numbers in order: they never go down along the result, and with
    order desc they never go up. *)
Theorem applySorting_numbers :
  forall (rooms : list Room) (sort : string) (order : option string),
    sort <> EmptyString ->
    (forall room, In room rooms -> exists n, sortValue sort room = JNum n) ->
    numbers_along sort (if is_desc order then Z.ge else Z.le)
      (applySorting rooms (Some sort) order).
Proof.
  intros rooms sort order Hne Hnum. unfold applySorting.
  destruct (String.eqb sort EmptyString) eqn:E.
  - apply String.eqb_eq in E. contradiction.
  - pose proof (array_sort_ordered _ rooms
                  (numbers_consistent rooms sort order Hnum)) as Hs.
    unfold numbers_along.
    apply (StronglySorted_weaken _ _ _ ) with (2 := Hs).
    intros a b Ha Hb Hab n m Hn Hm.
    rewrite (sortCompare_numbers sort order b a m n Hm Hn) in Hab.
    destruct (is_desc order); lia.
Qed.

Lemma applySorting_numbers_witness :
  numbers_along "clients" Z.ge
    (applySorting
       [sample_room "a" "GameRoom" 2; sample_room "b" "GameRoom" 5;
        sample_room "c" "GameRoom" 1]
       (Some "clients") (Some "desc"))
  /\ map clients_of
       (applySorting
          [sample_room "a" "GameRoom" 2; sample_room "b" "GameRoom" 5;
           sample_room "c" "GameRoom" 1]
          (Some "clients") (Some "desc"))
     = [JNum 5; JNum 2; JNum 1].
Proof.
  split; [|reflexivity].
  apply (applySorting_numbers _ "clients" (Some "desc")); [discriminate|].
  intros room [<-|[<-|[<-|[]]]]; eexists; reflexivity.
Defined.

(** X6. Only the order [desc] sorts downwards: with any other order, or
    with none, [applySorting] sorts as with [asc]. *)
Theorem applySorting_order_default :
  forall (rooms : list Room) (sort order : option string),
    order <> Some "desc" ->
    applySorting rooms sort order = applySorting rooms sort (Some "asc").
Proof.
  intros rooms sort order Hne. unfold applySorting.
  destruct sort as [s|]; [|reflexivity].
  destruct (String.eqb s EmptyString); [reflexivity|].
  apply array_sort_ext. intros x y. unfold sortCompare.
  assert (Hd : is_desc order = false).
  { destruct order as [o|]; [|reflexivity]. simpl.
    destruct (String.eqb o "desc") eqn:E; [|reflexivity].
    apply String.eqb_eq in E. subst o. contradiction. }
  now rewrite Hd.
Qed.

Lemma applySorting_order_default_witness :
  applySorting sample_rooms (Some "clients") (Some "DESC")
  = applySorting sample_rooms (Some "clients") (Some "asc").
Proof.
  apply applySorting_order_default. discriminate.
Defined.



(* ================================================================== *)
(** ** More on pagination *)

Lemma windows_cover {A : Type} (k : nat) :
  forall (n : nat) (l : list A),
    (List.length l <= n * k)%nat ->
    List.concat (map (fun p => firstn k (skipn (p * k) l)) (seq 0 n)) = l.
Proof.
  induction n as [|n IH]; intros l Hlen.
  - simpl in Hlen. destruct l; [reflexivity | simpl in Hlen; lia].
  - cbn [seq map List.concat]. rewrite <- seq_shift, map_map.
    transitivity (firstn k l ++ skipn k l); [|apply firstn_skipn].
    f_equal.
    transitivity
      (List.concat
         (map (fun p => firstn k (skipn (p * k) (skipn k l))) (seq 0 n))).
    + f_equal. apply map_ext. intros p.
      rewrite skipn_skipn. do 2 f_equal. lia.
    + apply IH. rewrite length_skipn. simpl in Hlen. lia.
Qed.

Lemma slice_page {A : Type} (l : list A) (limit : Z) (p : nat) :
  1 <= limit ->
  slice l ((Z.of_nat (S p) - 1) * limit) (Z.of_nat (S p) * limit)
  = firstn (Z.to_nat limit) (skipn (p * Z.to_nat limit) l).
Proof.
  intros Hl. rewrite slice_window by nia.
  f_equal; [f_equal; lia | f_equal; nia].
Qed.



Lemma or_num_nonzero (a : option Z) (d : Z) :
  d <> 0 ->
  match or_num a (Some d) with
  | Some n => n
  | None => d
  end <> 0.
Proof.
  intros Hd. unfold or_num. destruct a as [n|]; [|assumption].
  destruct (n =? 0) eqn:E; [assumption|]. now apply Z.eqb_neq.
Qed.

(** X9. The page and the limit of a request are never 0, so the number
    of pages is never a division by zero: a page that is absent, not a
    number, or 0 is page 1; a limit that is absent, not a number, or 0
    is the configured [pageSize], and 100 when that is absent or 0 too. *)
Theorem page_and_limit_never_zero :
  forall (opts : MonitorOptions.t) (q : ListQuery.t),
    query_page q <> 0
    /\ query_limit opts q <> 0
    /\ (parseInt (ListQuery.page q) = None
        \/ parseInt (ListQuery.page q) = Some 0 -> query_page q = 1)
    /\ (forall n, parseInt (ListQuery.limit q) = Some n -> n <> 0 ->
                  query_limit opts q = n)
    /\ (parseInt (ListQuery.limit q) = None
        \/ parseInt (ListQuery.limit q) = Some 0 ->
        (forall m, roomList_option opts RoomListOptions.pageSize = Some m ->
                   m <> 0 -> query_limit opts q = m)
        /\ (roomList_option opts RoomListOptions.pageSize = None
            \/ roomList_option opts RoomListOptions.pageSize = Some 0 ->
            query_limit opts q = 100)).
Proof.
  intros opts q. unfold query_page, query_limit.
  split; [apply or_num_nonzero; discriminate|].
  split; [apply or_num_nonzero; discriminate|].
  split; [intros [-> | ->]; reflexivity|].
  split.
  - intros n -> Hn. unfold or_num at 2.
    apply Z.eqb_neq in Hn. rewrite Hn. simpl. now rewrite Hn.
  - intros Hlim.
    assert (E : or_num (parseInt (ListQuery.limit q))
                  (roomList_option opts RoomListOptions.pageSize)
                = roomList_option opts RoomListOptions.pageSize)
      by (destruct Hlim as [-> | ->]; reflexivity).
    rewrite E. split.
    + intros m -> Hm. simpl. apply Z.eqb_neq in Hm. now rewrite Hm.
    + intros [-> | ->]; reflexivity.
Qed.

Lemma page_and_limit_never_zero_witness :
  query_page (list_query None None (Some "0") (Some "abc")) = 1
  /\ query_limit sample_opts (list_query None None (Some "0") (Some "abc"))
     = 100
  /\ query_limit sample_opts (list_query None None None (Some "25px")) = 25.
Proof.
  destruct (page_and_limit_never_zero sample_opts
              (list_query None None (Some "0") (Some "abc")))
    as (_ & _ & Hpage & _ & Hlimit).
  destruct (page_and_limit_never_zero sample_opts
              (list_query None None None (Some "25px")))
    as (_ & _ & _ & Hgiven & _).
  split; [apply Hpage; now right|].
  split.
  - apply Hlimit; now left.
  - apply Hgiven; [reflexivity | discriminate].
Defined.

(** X10. A negative page is not refused: with a limit of at least 1 it
    counts the windows from the end of the sorted list, page -k being
    the window that leaves out the last k * limit rooms and takes the
    [limit] rooms before them.  So page -1 is never the last window. *)
Theorem negative_page_counts_from_end :
  forall (env : Env) (opts : MonitorOptions.t) (allRooms : list Room)
         (q : ListQuery.t),
    query_page q <= -1 ->
    1 <= query_limit opts q ->
    paginatedRooms env opts allRooms q
    = rev (firstn (Z.to_nat (query_limit opts q))
             (skipn (Z.to_nat (- query_page q * query_limit opts q))
                (rev (sortedRooms env opts allRooms q)))).
Proof.
  intros env opts allRooms q Hp Hl. unfold paginatedRooms.
  set (l := sortedRooms env opts allRooms q).
  set (m := query_limit opts q) in *.
  set (pg := query_page q) in *.
  unfold slice.
  set (len := Z.of_nat (List.length l)).
  assert (Hlen : 0 <= len) by apply Nat2Z.is_nonneg.
  assert (Es : ((pg - 1) * m <? 0) = true) by (apply Z.ltb_lt; nia).
  assert (Ef : (pg * m <? 0) = true) by (apply Z.ltb_lt; nia).
  rewrite Es, Ef.
  rewrite skipn_rev, firstn_rev, rev_involutive.
  rewrite length_firstn, skipn_firstn_comm.
  f_equal; [|f_equal]; unfold len in *; lia.
Qed.

Lemma negative_page_counts_from_end_witness :
  let q := list_query (Some "clients") None (Some "-1") (Some "1") in
  map clients_of (sortedRooms sample_env sample_opts sample_rooms q)
  = [JNum 1; JNum 2; JNum 5]
  /\ map clients_of (paginatedRooms sample_env sample_opts sample_rooms q)
     = [JNum 2].
Proof.
  intros q. split; [reflexivity|].
  rewrite (negative_page_counts_from_end sample_env sample_opts sample_rooms q);
    [reflexivity | vm_compute; discriminate | vm_compute; discriminate].
Defined.

(* ================================================================== *)
(** ** More on the ad-hoc filter *)

Lemma entry_matches_spec (room : Room) (key : string) (value : JsValue) :
  entry_matches room (key, value) = true <-> pair_matches room key value.
Proof.
  unfold entry_matches, pair_matches, or_else, and_then. cbn [truthy].
  destruct (strict_eq (obj_get room key) value); cbn [truthy].
  - split; auto.
  - destruct (truthy (obj_get room "metadata")) eqn:T; cbn [truthy].
    + split; [auto | intros [F|[_ H]]; [discriminate | exact H]].
    + rewrite T. split; [discriminate | intros [F|[F _]]; discriminate].
Qed.

(** X11. An ad-hoc filter that parses to an object keeps exactly the
    rooms that match every one of its pairs, a pair being matched by the
    room's own field or else by the field of its metadata; the rooms kept
    stay in their order. *)
Theorem applyQueryFilter_matches :
  forall (env : Env) (text : string) (filterObj : JsValue)
         (pairs : list (string * JsValue)) (l : list Room),
    text <> EmptyString ->
    JSON_parse env text = Some filterObj ->
    entries filterObj = inr pairs ->
    applyQueryFilter env (Some text) l
    = List.filter (fun room => forallb (entry_matches room) pairs) l
    /\ forall room,
         In room (applyQueryFilter env (Some text) l) <->
         In room l /\
         forall key value, In (key, value) pairs -> pair_matches room key value.
Proof.
  intros env text filterObj pairs l Hne Hp He.
  assert (E : applyQueryFilter env (Some text) l
              = List.filter (fun room => forallb (entry_matches room) pairs) l).
  { unfold applyQueryFilter, or_text.
    destruct (String.eqb text EmptyString) eqn:Et.
    - apply String.eqb_eq in Et. contradiction.
    - now rewrite Hp, He. }
  split; [exact E|].
  intros room. rewrite E, filter_In, forallb_forall.
  apply and_iff_compat_l. split.
  - intros H key value Hin. apply entry_matches_spec. now apply H.
  - intros H [key value] Hin. apply entry_matches_spec. now apply H.
Qed.

Lemma applyQueryFilter_matches_witness :
  let env :=
    {| JSON_parse := fun _ => Some (JObj [("region", JStr "eu")]);
       Date_getTime := Date_getTime sample_env;
       Date_now := 0;
       query := inr sample_rooms;
       remoteRoomCall := fun _ => None;
       cpu_usage := inr JNull;
       mem_used := inr JNull |} in
  applyQueryFilter env (Some "f") sample_rooms
  = [ sample_room "a" "GameRoom" 2; sample_room "b" "GameRoom" 5;
      sample_room "c" "GameRoom" 1 ].
Proof.
  intros env.
  destruct (applyQueryFilter_matches env "f" (JObj [("region", JStr "eu")])
              [("region", JStr "eu")] sample_rooms) as [E _];
    [discriminate | reflexivity | reflexivity |].
  rewrite E. reflexivity.
Defined.

Lemma strict_eq_unmatchable (v value : JsValue) :
  is_plain value = false -> value <> JUndefined -> strict_eq v value = false.
Proof.
  intros Hp Hu. destruct v, value; try reflexivity; try discriminate;
    congruence.
Qed.

(** X12. What the ad-hoc filter lets through.  It leaves the list as it
    is when the parameter is absent or empty, when its text does not
    parse, and when it parses to null or to a value without pairs.  And a
    pair whose expected value is an object, an array or NaN is matched by
    no room: such a filter empties the list. *)
Theorem applyQueryFilter_edges :
  forall (env : Env) (l : list Room),
    applyQueryFilter env None l = l
    /\ applyQueryFilter env (Some EmptyString) l = l
    /\ (forall text filterObj,
           JSON_parse env text = None
           \/ (JSON_parse env text = Some filterObj
               /\ (filterObj = JNull \/ entries filterObj = inr [])) ->
           applyQueryFilter env (Some text) l = l)
    /\ (forall text filterObj pairs key value,
           text <> EmptyString ->
           JSON_parse env text = Some filterObj ->
           entries filterObj = inr pairs ->
           In (key, value) pairs ->
           is_plain value = false -> value <> JUndefined ->
           applyQueryFilter env (Some text) l = []).
Proof.
  intros env l. split; [reflexivity|]. split; [reflexivity|]. split.
  - intros text filterObj H. unfold applyQueryFilter, or_text.
    destruct (String.eqb text EmptyString); [reflexivity|].
    destruct H as [-> | [-> [-> | ->]]]; try reflexivity.
    now apply filter_all.
  - intros text filterObj pairs key value Hne Hp He Hin Hplain Hu.
    unfold applyQueryFilter, or_text.
    destruct (String.eqb text EmptyString) eqn:Et;
      [apply String.eqb_eq in Et; contradiction|].
    rewrite Hp, He. apply filter_none. intros room _.
    destruct (forallb (entry_matches room) pairs) eqn:F; [|reflexivity].
    rewrite forallb_forall in F. specialize (F _ Hin).
    apply entry_matches_spec in F.
    destruct F as [F|[_ F]];
      rewrite (strict_eq_unmatchable _ value Hplain Hu) in F; discriminate.
Qed.

Lemma applyQueryFilter_edges_witness :
  let env :=
    {| JSON_parse :=
         fun text =>
           if String.eqb text "null" then Some JNull
           else if String.eqb text "m"
                then Some (JObj [("metadata", JObj [("region", JStr "eu")])])
                else None;
       Date_getTime := Date_getTime sample_env;
       Date_now := 0;
       query := inr sample_rooms;
       remoteRoomCall := fun _ => None;
       cpu_usage := inr JNull;
       mem_used := inr JNull |} in
  applyQueryFilter env (Some "{") sample_rooms = sample_rooms
  /\ applyQueryFilter env (Some "null") sample_rooms = sample_rooms
  /\ applyQueryFilter env (Some "m") sample_rooms = [].
Proof.
  intros env.
  destruct (applyQueryFilter_edges env sample_rooms) as (_ & _ & Hsame & Hnone).
  split; [|split].
  - apply (Hsame "{" JNull). now left.
  - apply (Hsame "null" JNull). right. split; [reflexivity | now left].
  - apply (Hnone "m" (JObj [("metadata", JObj [("region", JStr "eu")])])
             [("metadata", JObj [("region", JStr "eu")])]
             "metadata" (JObj [("region", JStr "eu")]));
      try reflexivity; try discriminate. now left.
Defined.

(* ================================================================== *)
(** ** More on the rooms sent *)

Lemma clone_visible_plain (v : JsValue) :
  is_plain v = true -> clone_visible v = v.
Proof. now destruct v. Qed.

(** X13. The room sent.  Its [locked] is the room's when that is truthy
    and false otherwise, never undefined; its [private] is the room's; its
    [elapsedTime] is the time now minus the creation time; and every
    other field that is a string, a number, a boolean or null is the
    room's, a field the room lacks staying absent. *)
Theorem formatRoom_fields :
  forall (env : Env) (room : Room),
    obj_get (formatRoom env room) "locked"
    = (if truthy (obj_get room "locked") then obj_get room "locked"
       else JBool false)
    /\ obj_get (formatRoom env room) "private" = obj_get room "private"
    /\ (forall t, Date_getTime env (obj_get room "createdAt") = JNum t ->
                  obj_get (formatRoom env room) "elapsedTime"
                  = JNum (Date_now env - t))
    /\ (forall k,
           ~ In k ["locked"; "private"; "maxClients"; "elapsedTime"] ->
           (is_plain (obj_get room k) = true \/ obj_get room k = JUndefined) ->
           obj_get (formatRoom env room) k = obj_get room k).
Proof.
  intros env room. unfold formatRoom. repeat split.
  - rewrite !obj_get_set_other by reflexivity.
    now rewrite obj_get_set_same.
  - rewrite !obj_get_set_other by reflexivity.
    now rewrite obj_get_set_same.
  - intros t Ht. rewrite obj_get_set_same, Ht. reflexivity.
  - intros k Hk Hv.
    assert (Hne : forall j, In j ["locked"; "private"; "maxClients"; "elapsedTime"]
                            -> String.eqb j k = false).
    { intros j Hj. apply String.eqb_neq. intros ->. contradiction. }
    rewrite !obj_get_set_other by (apply Hne; simpl; tauto).
    rewrite obj_get_clone.
    destruct Hv as [Hv | ->]; [now apply clone_visible_plain | reflexivity].
Qed.

Lemma formatRoom_fields_witness :
  obj_get (formatRoom sample_env (bare_room "l")) "locked" = JBool false
  /\ obj_get (formatRoom sample_env (sample_room "a" "GameRoom" 2)) "elapsedTime"
     = JNum 4000
  /\ obj_get (formatRoom sample_env (sample_room "a" "GameRoom" 2)) "roomId"
     = JStr "a".
Proof.
  destruct (formatRoom_fields sample_env (bare_room "l")) as (Hlocked & _).
  destruct (formatRoom_fields sample_env (sample_room "a" "GameRoom" 2))
    as (_ & _ & Htime & Hkeep).
  split; [exact Hlocked|]. split.
  - apply (Htime 1000). reflexivity.
  - apply Hkeep; [|now left].
    intros [F|[F|[F|[F|[]]]]]; discriminate.
Defined.

(* ================================================================== *)
(** ** More on the room endpoints *)

Lemma expand_plain (repl matched before after : string) :
  contains_char "$" repl = false ->
  expand_replacement repl matched before after = repl.
Proof.
  induction repl as [|c repl IH]; intros H; [reflexivity|].
  simpl in H. apply orb_false_iff in H. destruct H as [Hc Hr].
  specialize (IH Hr).
  destruct c as [b0 b1 b2 b3 b4 b5 b6 b7].
  destruct b0, b1, b2, b3, b4, b5, b6, b7;
    try discriminate Hc; simpl; now rewrite IH.
Qed.

(** X14. The message of the 500.  For a room id without a dollar sign
    the unavailable-room response names the room: its message is the
    template with the id in the place of [$roomId], and the status is 500.
    An absent id reads [undefined]. *)
Theorem unavailable_message :
  forall roomId : string,
    contains_char "$" roomId = false ->
    unavailable (Some roomId)
    = handleError
        (String.append "@colyseus/monitor: room "
           (String.append roomId " is not available anymore.")) 500
    /\ unavailable None
       = handleError
           "@colyseus/monitor: room undefined is not available anymore." 500.
Proof.
  intros roomId H. split; [|reflexivity].
  unfold unavailable, UNAVAILABLE_ROOM_ERROR, replace. simpl.
  now rewrite expand_plain.
Qed.

Lemma unavailable_message_witness :
  unavailable (Some "X")
  = handleError "@colyseus/monitor: room X is not available anymore." 500.
Proof.
  apply (unavailable_message "X"). reflexivity.
Defined.

Lemma attach_actions_object (o : Obj) (key : string)
  (actions : option (list CustomAction.t)) :
  exists o',
    attach_actions (JObj o) key actions = inr (JObj o')
    /\ obj_get o' key
       = match actions with
         | Some l => JArr (map action_summary l)
         | None => obj_get o key
         end
    /\ forall k, k <> key -> obj_get o' k = obj_get o k.
Proof.
  unfold attach_actions. destruct actions as [l|].
  - exists (obj_set o key (JArr (map action_summary l))).
    split; [reflexivity|]. split; [apply obj_get_set_same|].
    intros k Hk. apply obj_get_set_other. apply String.eqb_neq. congruence.
  - exists o. repeat split.
Qed.

(** X15. The inspection sent.  When inspection is not switched off and
    the registry answers with an object, GET /room sends that object with
    status 200, its [actions] and [clientActions] replaced by the
    summaries of the configured room and client actions (and left alone
    where none are configured) and every other property as the registry
    gave it. *)
Theorem roomHandler_inspect_data :
  forall (env : Env) (opts : MonitorOptions.t) (q : RoomQuery.t) (o : Obj),
    ~ explicitly_false opts AccessControlOptions.allowStateInspection ->
    remoteRoomCall env
      {| call_roomId := RoomQuery.roomId q; call_method := "getInspectData";
         call_args := None |} = Some (JObj o) ->
    exists o',
      snd (roomHandler env opts q)
      = Sent {| status := 200; body := JsonBody (JObj o') |}
      /\ obj_get o' "actions"
         = match room_actions opts with
           | Some l => JArr (map action_summary l)
           | None => obj_get o "actions"
           end
      /\ obj_get o' "clientActions"
         = match client_actions opts with
           | Some l => JArr (map action_summary l)
           | None => obj_get o "clientActions"
           end
      /\ forall k, k <> "actions" -> k <> "clientActions" ->
                   obj_get o' k = obj_get o k.
Proof.
  intros env opts q o Hopen Hcall.
  apply access_not_false in Hopen.
  unfold roomHandler, call_remote. rewrite Hopen, Hcall. simpl.
  destruct (attach_actions_object o "actions" (room_actions opts))
    as (o1 & E1 & Hkey1 & Hrest1).
  destruct (attach_actions_object o1 "clientActions" (client_actions opts))
    as (o2 & E2 & Hkey2 & Hrest2).
  rewrite E1, E2. exists o2. split; [reflexivity|]. repeat split.
  - rewrite Hrest2 by discriminate. exact Hkey1.
  - rewrite Hkey2. destruct (client_actions opts); [reflexivity|].
    apply Hrest1. discriminate.
  - intros k Ha Hc. now rewrite Hrest2, Hrest1.
Qed.

Lemma roomHandler_inspect_data_witness :
  let env :=
    {| JSON_parse := sample_parse;
       Date_getTime := Date_getTime sample_env;
       Date_now := 0;
       query := inr [];
       remoteRoomCall :=
         fun _ => Some (JObj [("state", JNum 7); ("actions", JNull)]);
       cpu_usage := inr JNull;
       mem_used := inr JNull |} in
  exists o',
    snd (roomHandler env sample_opts {| RoomQuery.roomId := Some "a" |})
    = Sent {| status := 200; body := JsonBody (JObj o') |}
    /\ obj_get o' "actions"
       = JArr [action_summary (sample_action "restart" "restartRoom")]
    /\ obj_get o' "state" = JNum 7.
Proof.
  intros env.
  destruct (roomHandler_inspect_data env sample_opts
              {| RoomQuery.roomId := Some "a" |}
              [("state", JNum 7); ("actions", JNull)])
    as (o' & Hsent & Hact & _ & Hrest).
  - intros (a & Ha & Hf). injection Ha as <-. discriminate.
  - reflexivity.
  - exists o'. split; [exact Hsent|]. split; [exact Hact|].
    apply Hrest; discriminate.
Defined.

Lemma action_summary_blank (action : CustomAction.t) :
  action_summary (blank_handler action) = action_summary action.
Proof. reflexivity. Qed.

Lemma summaries_blank (actions : option (list CustomAction.t)) :
  option_map (map action_summary) (option_map (map blank_handler) actions)
  = option_map (map action_summary) actions.
Proof.
  destruct actions as [l|]; [|reflexivity]. simpl. f_equal.
  rewrite map_map. now apply map_ext.
Qed.

Lemma room_actions_blank (opts : MonitorOptions.t) :
  room_actions (without_handlers opts)
  = option_map (map blank_handler) (room_actions opts).
Proof.
  unfold room_actions, without_handlers. simpl.
  now destruct (MonitorOptions.actions opts).
Qed.

Lemma client_actions_blank (opts : MonitorOptions.t) :
  client_actions (without_handlers opts)
  = option_map (map blank_handler) (client_actions opts).
Proof.
  unfold client_actions, without_handlers. simpl.
  now destruct (MonitorOptions.actions opts).
Qed.

Lemma attach_actions_blank (data : JsValue) (key : string)
  (actions : option (list CustomAction.t)) :
  attach_actions data key (option_map (map blank_handler) actions)
  = attach_actions data key actions.
Proof.
  destruct actions as [l|]; [|reflexivity]. simpl.
  rewrite map_map. do 2 f_equal.
Qed.

(** X16. The names of the handlers stay on the server: the listing of
    GET / and the whole outcome of GET /room are the same when the
    handler of every configured action is blanked, so nothing they send
    depends on a handler name. *)
Theorem handler_names_not_sent :
  forall (env : Env) (opts : MonitorOptions.t),
    (forall allRooms q cpu memory,
        listResponse env (without_handlers opts) allRooms q cpu memory
        = listResponse env opts allRooms q cpu memory)
    /\ (forall q, listHandler env (without_handlers opts) q
                  = listHandler env opts q)
    /\ (forall q, roomHandler env (without_handlers opts) q
                  = roomHandler env opts q).
Proof.
  intros env opts.
  assert (Hlist : forall allRooms q cpu memory,
             listResponse env (without_handlers opts) allRooms q cpu memory
             = listResponse env opts allRooms q cpu memory).
  { intros allRooms q cpu memory. unfold listResponse.
    rewrite room_actions_blank, client_actions_blank, !summaries_blank.
    reflexivity. }
  split; [exact Hlist|]. split.
  - intros q. unfold listHandler.
    destruct (query env); [reflexivity|].
    destruct (cpu_usage env); [reflexivity|].
    destruct (mem_used env); [reflexivity|].
    now rewrite Hlist.
  - intros q. unfold roomHandler.
    rewrite room_actions_blank, client_actions_blank.
    change (access_is_false (without_handlers opts))
      with (access_is_false opts).
    destruct (access_is_false opts _); [reflexivity|].
    unfold call_remote. destruct (remoteRoomCall env _); [|reflexivity].
    simpl. rewrite attach_actions_blank.
    destruct (attach_actions j "actions" (room_actions opts)); [reflexivity|].
    now rewrite attach_actions_blank.
Qed.

(* ================================================================== *)
(** ** More on the dispatch of GET /room/call *)

Lemma find_handler_first (actions : option (list CustomAction.t)) (id : string) :
  find_handler actions id
  = match first_action actions id with
    | Some a =>
        if String.eqb (CustomAction.handler a) EmptyString then None
        else Some (CustomAction.handler a)
    | None => None
    end.
Proof. unfold find_handler, first_action. now destruct actions. Qed.

Lemma find_handler_some (actions : option (list CustomAction.t)) (id : string)
  (a : CustomAction.t) :
  first_action actions id = Some a ->
  CustomAction.handler a <> EmptyString ->
  find_handler actions id = Some (CustomAction.handler a).
Proof.
  intros Hf Hh. rewrite find_handler_first, Hf.
  apply String.eqb_neq in Hh. now rewrite Hh.
Qed.

Lemma find_handler_empty (actions : option (list CustomAction.t)) (id : string)
  (a : CustomAction.t) :
  first_action actions id = Some a ->
  CustomAction.handler a = EmptyString ->
  find_handler actions id = None.
Proof. intros Hf Hh. now rewrite find_handler_first, Hf, Hh. Qed.

Lemma split_on_none (c : ascii) (s : string) :
  contains_char c s = false -> split_on c s = [s].
Proof.
  induction s as [|d s IH]; simpl; intros H; [reflexivity|].
  apply orb_false_iff in H. destruct H as [Hd Hs].
  now rewrite Hd, (IH Hs).
Qed.

Lemma prefix_split (p s : string) :
  String.prefix p s = true -> exists rest, s = String.append p rest.
Proof.
  revert s. induction p as [|c p IH]; intros s H.
  - now exists s.
  - destruct s as [|d s]; [discriminate|]. simpl in H.
    destruct (ascii_dec c d) as [<-|]; [|discriminate].
    destruct (IH s H) as [rest ->]. now exists rest.
Qed.

Section Dispatch.

Variable env : Env.
Variable opts : MonitorOptions.t.

(** The dispatch of a room action token. *)
Lemma dispatch_room_action (roomId : option string) (id : string)
  (args : JsValue) :
  dispatch env opts roomId (Some (String.append "customAction:" id)) args
  = match find_handler (room_actions opts) id with
    | Some handler =>
        call_remote env
          {| call_roomId := roomId; call_method := handler;
             call_args := Some args |} send_json
    | None =>
        ([], handleError
               (String.append "Custom action "
                  (String.append id " not found")) 404)
    end.
Proof.
  unfold dispatch.
  change (String.eqb (String.append "customAction:" id) "disconnect")
    with false.
  change (String.eqb (String.append "customAction:" id)
            "_sendMessageToClient") with false.
  rewrite prefix_append. cbn [andb]. now rewrite replace_prefix.
Qed.

(** The dispatch of a client action token, by the segments of its text
    after the prefix. *)
Lemma dispatch_client_action (roomId : option string) (rest id : string)
  (more : list string) (args : JsValue) :
  split_on ":" rest = id :: more ->
  dispatch env opts roomId (Some (String.append "customClientAction:" rest)) args
  = match find_handler (client_actions opts) id with
    | Some handler =>
        match spread args with
        | inl _ => ([], unavailable roomId)
        | inr elems =>
            call_remote env
              {| call_roomId := roomId; call_method := handler;
                 call_args := Some (JArr (opt_str (nth_error more 0) :: elems)) |}
              send_json
        end
    | None =>
        ([], handleError
               (String.append "Custom client action "
                  (String.append id " not found")) 404)
    end.
Proof.
  intros Hs. unfold dispatch.
  change (String.eqb (String.append "customClientAction:" rest) "disconnect")
    with false.
  change (String.eqb (String.append "customClientAction:" rest)
            "_sendMessageToClient") with false.
  change (String.prefix "customAction:"
            (String.append "customClientAction:" rest)) with false.
  rewrite prefix_append. cbn [andb]. rewrite replace_prefix, Hs.
  reflexivity.
Qed.

Lemma client_token_segments (id clientId tail : string) :
  contains_char ":" id = false ->
  contains_char ":" clientId = false ->
  tail = EmptyString \/ (exists t, tail = String ":" t) ->
  exists more,
    split_on ":" (String.append id (String ":" (String.append clientId tail)))
    = id :: clientId :: more.
Proof.
  intros Hi Hc Ht. rewrite (split_on_first ":" id _ Hi).
  destruct Ht as [-> | [t ->]].
  - exists []. f_equal.
    assert (E : String.append clientId EmptyString = clientId).
    { clear. induction clientId as [|c s IH]; simpl; congruence. }
    rewrite E. now apply split_on_none.
  - exists (split_on ":" t). f_equal. now apply split_on_first.
Qed.

Lemma call_remote_outcome (c : RemoteCall) :
  fst (call_remote env c send_json) = [c]
  /\ (forall data, remoteRoomCall env c = Some data ->
                   snd (call_remote env c send_json)
                   = Sent {| status := 200; body := JsonBody data |})
  /\ (remoteRoomCall env c = None ->
      snd (call_remote env c send_json) = unavailable (call_roomId c)).
Proof.
  unfold call_remote. destruct (remoteRoomCall env c) as [d|]; repeat split.
  - intros data E. now injection E as <-.
  - discriminate.
  - discriminate.
Qed.

End Dispatch.

(** X17. A registered room action is carried out.  For the token
    [customAction:<id>], when the first configured room action with that
    id has a handler and the [args] parse, the router makes exactly one
    remote call: to the room of the request, of the method named by the
    handler, with the parsed arguments unchanged.  The registry's answer
    goes back with status 200, and a rejected call gives the 500. *)
Theorem registered_room_action_called :
  forall (env : Env) (opts : MonitorOptions.t) (q : CallQuery.t)
         (id : string) (a : CustomAction.t) (args : JsValue),
    CallQuery.method q = Some (String.append "customAction:" id) ->
    first_action (room_actions opts) id = Some a ->
    CustomAction.handler a <> EmptyString ->
    JSON_parse env (call_args_text q) = Some args ->
    let call := {| call_roomId := CallQuery.roomId q;
                   call_method := CustomAction.handler a;
                   call_args := Some args |} in
    fst (callHandler env opts q) = [call]
    /\ (forall data, remoteRoomCall env call = Some data ->
                     snd (callHandler env opts q)
                     = Sent {| status := 200; body := JsonBody data |})
    /\ (remoteRoomCall env call = None ->
        snd (callHandler env opts q) = unavailable (CallQuery.roomId q)).
Proof.
  intros env opts q id a args Hm Hf Hh Hp call.
  unfold callHandler. rewrite Hp, Hm, dispatch_room_action.
  rewrite (find_handler_some _ _ a Hf Hh).
  apply (call_remote_outcome env call).
Qed.

Lemma registered_room_action_called_witness :
  let q := call_query "a" "customAction:restart" (Some "[1]") in
  fst (callHandler sample_env sample_opts q)
  = [ {| call_roomId := Some "a"; call_method := "restartRoom";
         call_args := Some (JArr [JNum 1]) |} ]
  /\ snd (callHandler sample_env sample_opts q)
     = Sent {| status := 200; body := JsonBody (JBool true) |}.
Proof.
  intros q.
  destruct (registered_room_action_called sample_env sample_opts q "restart"
              (sample_action "restart" "restartRoom") (JArr [JNum 1]))
    as (Hcall & Hok & _);
    [reflexivity | reflexivity | discriminate | reflexivity |].
  split; [exact Hcall|].
  apply (Hok (JBool true)). reflexivity.
Defined.

(** X18. A registered client action gets the client id first.  For the
    token [customClientAction:<id>:<clientId>], id and client id without
    a colon, when the first configured client action with that id has a
    handler and the [args] parse to an array, the one remote call made
    names the handler and passes the client id followed by the elements of
    [args].  Text after a further colon is dropped from the client id.
    When [args] parse to something that cannot be spread, no call is made
    and the answer is the 500. *)
Theorem registered_client_action_called :
  forall (env : Env) (opts : MonitorOptions.t) (q : CallQuery.t)
         (id clientId tail : string) (a : CustomAction.t) (args : JsValue),
    contains_char ":" id = false ->
    contains_char ":" clientId = false ->
    tail = EmptyString \/ (exists t, tail = String ":" t) ->
    CallQuery.method q
    = Some (String.append "customClientAction:"
              (String.append id (String ":" (String.append clientId tail)))) ->
    first_action (client_actions opts) id = Some a ->
    CustomAction.handler a <> EmptyString ->
    JSON_parse env (call_args_text q) = Some args ->
    (forall elems,
        spread args = inr elems ->
        callHandler env opts q
        = call_remote env
            {| call_roomId := CallQuery.roomId q;
               call_method := CustomAction.handler a;
               call_args := Some (JArr (JStr clientId :: elems)) |}
            send_json)
    /\ (forall e,
           spread args = inl e ->
           callHandler env opts q = ([], unavailable (CallQuery.roomId q))).
Proof.
  intros env opts q id clientId tail a args Hi Hc Ht Hm Hf Hh Hp.
  destruct (client_token_segments id clientId tail Hi Hc Ht) as [more Hs].
  unfold callHandler. rewrite Hp, Hm.
  rewrite (dispatch_client_action env opts _ _ id (clientId :: more) args Hs).
  rewrite (find_handler_some _ _ a Hf Hh).
  split; intros x Hx; now rewrite Hx.
Qed.

Lemma registered_client_action_called_witness :
  callHandler sample_env sample_opts
    (call_query "a" "customClientAction:ping:c1:rest" (Some "[1]"))
  = ([ {| call_roomId := Some "a"; call_method := "pingClient";
          call_args := Some (JArr [JStr "c1"; JNum 1]) |} ],
     Sent {| status := 200; body := JsonBody (JBool true) |}).
Proof.
  destruct (registered_client_action_called sample_env sample_opts
              (call_query "a" "customClientAction:ping:c1:rest" (Some "[1]"))
              "ping" "c1" ":rest" (sample_action "ping" "pingClient")
              (JArr [JNum 1]))
    as [Hcall _];
    [reflexivity | reflexivity | right; now exists "rest" | reflexivity
    | reflexivity | discriminate | reflexivity |].
  rewrite (Hcall [JNum 1] eq_refl). reflexivity.
Defined.



(** X20. Custom actions are not guarded: for a token with one of the two
    custom prefixes the outcome of GET /room/call is the same under every
    access configuration, so no access flag refuses or allows a custom
    action. *)
Theorem custom_actions_ignore_access :
  forall (env : Env) (opts : MonitorOptions.t)
         (a : option AccessControlOptions.t) (q : CallQuery.t) (method : string),
    CallQuery.method q = Some method ->
    String.prefix "customAction:" method = true
    \/ String.prefix "customClientAction:" method = true ->
    callHandler env (with_access a opts) q = callHandler env opts q.
Proof.
  intros env opts a q method Hm Hp. unfold callHandler.
  destruct (JSON_parse env (call_args_text q)) as [args|]; [|reflexivity].
  rewrite Hm. destruct Hp as [Hp|Hp];
    apply prefix_split in Hp; destruct Hp as [rest ->].
  - now rewrite !dispatch_room_action.
  - destruct (split_on ":" rest) as [|id more] eqn:Hs.
    + destruct rest; simpl in Hs; [discriminate|].
      destruct (Ascii.eqb a0 ":"); [discriminate|].
      destruct (split_on ":" rest); discriminate.
    + now rewrite !(dispatch_client_action _ _ _ _ id more args Hs).
Qed.

Lemma custom_actions_ignore_access_witness :
  callHandler sample_env
    (with_access (MonitorOptions.access strict_opts) sample_opts)
    (call_query "a" "customAction:restart" None)
  = ([ {| call_roomId := Some "a"; call_method := "restartRoom";
          call_args := Some (JArr []) |} ],
     Sent {| status := 200; body := JsonBody (JBool true) |}).
Proof.
  rewrite (custom_actions_ignore_access sample_env sample_opts
             (MonitorOptions.access strict_opts)
             (call_query "a" "customAction:restart" None)
             "customAction:restart" eq_refl (or_introl eq_refl)).
  reflexivity.
Defined.

(** X21. The client library and the router agree.  The request that
    [executeClientAction] builds for an action id and a client id without
    colons, with arguments that [JSON.stringify] and [JSON.parse] carry
    over, makes the router call the handler of that action with the client
    id followed by those arguments; [executeRoomAction] makes it call the
    handler with the arguments.  But the token does not tell where the
    action id ends: an action id with a colon gives the request of its
    first part as action and the rest as client. *)
Theorem client_requests_reach_handlers :
  forall (env : Env) (opts : MonitorOptions.t)
         (JSON_stringify : JsValue -> string)
         (roomId actionId : string) (args : list JsValue) (a : CustomAction.t),
    JSON_stringify (JArr args) <> EmptyString ->
    JSON_parse env (JSON_stringify (JArr args)) = Some (JArr args) ->
    CustomAction.handler a <> EmptyString ->
    (first_action (room_actions opts) actionId = Some a ->
     callHandler env opts
       (Services.executeRoomAction JSON_stringify roomId actionId args)
     = call_remote env
         {| call_roomId := Some roomId;
            call_method := CustomAction.handler a;
            call_args := Some (JArr args) |} send_json)
    /\ (forall clientId,
           contains_char ":" actionId = false ->
           contains_char ":" clientId = false ->
           first_action (client_actions opts) actionId = Some a ->
           callHandler env opts
             (Services.executeClientAction JSON_stringify roomId actionId
                clientId args)
           = call_remote env
               {| call_roomId := Some roomId;
                  call_method := CustomAction.handler a;
                  call_args := Some (JArr (JStr clientId :: args)) |} send_json)
    /\ (forall part clientId,
           Services.executeClientAction JSON_stringify roomId
             (String.append actionId (String ":" part)) clientId args
           = Services.executeClientAction JSON_stringify roomId actionId
               (String.append part (String ":" clientId)) args).
Proof.
  intros env opts JSON_stringify roomId actionId args a Hne Hp Hh.
  assert (Htext : forall method,
             call_args_text
               (Services.remoteRoomCall JSON_stringify roomId method args)
             = JSON_stringify (JArr args)).
  { intros method. unfold call_args_text, Services.remoteRoomCall, or_text.
    simpl. apply String.eqb_neq in Hne. now rewrite Hne. }
  split; [|split].
  - intros Hf. unfold Services.executeRoomAction, callHandler.
    rewrite Htext, Hp.
    cbn [Services.remoteRoomCall CallQuery.method CallQuery.roomId].
    rewrite dispatch_room_action.
    now rewrite (find_handler_some _ _ a Hf Hh).
  - intros clientId Hi Hc Hf.
    unfold Services.executeClientAction, callHandler.
    rewrite Htext, Hp.
    destruct (client_token_segments actionId clientId EmptyString Hi Hc
                (or_introl eq_refl)) as [more Hs].
    assert (E : String.append clientId EmptyString = clientId).
    { clear. induction clientId as [|c s IH]; simpl; congruence. }
    rewrite E in Hs. cbn [Services.remoteRoomCall CallQuery.method
                            CallQuery.roomId].
    change (String.append ":" clientId) with (String ":" clientId).
    rewrite (dispatch_client_action env opts _ _ actionId (clientId :: more)
               (JArr args) Hs).
    now rewrite (find_handler_some _ _ a Hf Hh).
  - intros part clientId. unfold Services.executeClientAction.
    do 2 f_equal.
    change (String.append ":" clientId) with (String ":" clientId).
    change (String.append ":" (String.append part (String ":" clientId)))
      with (String ":" (String.append part (String ":" clientId))).
    clear. induction actionId as [|c s IH]; simpl; congruence.
Qed.

Lemma client_requests_reach_handlers_witness :
  let stringify (v : JsValue) := "[1]" in
  callHandler sample_env sample_opts
    (Services.executeClientAction stringify "a" "ping" "c1" [JNum 1])
  = ([ {| call_roomId := Some "a"; call_method := "pingClient";
          call_args := Some (JArr [JStr "c1"; JNum 1]) |} ],
     Sent {| status := 200; body := JsonBody (JBool true) |}).
Proof.
  intros stringify.
  destruct (client_requests_reach_handlers sample_env sample_opts stringify
              "a" "ping" [JNum 1] (sample_action "ping" "pingClient"))
    as (_ & Hclient & _);
    [discriminate | reflexivity | discriminate |].
  rewrite (Hclient "c1" eq_refl eq_refl eq_refl). reflexivity.
Defined.

Lemma dispatch_shape (env : Env) (opts : MonitorOptions.t)
  (roomId method : option string) (args : JsValue) :
  (exists message code,
      dispatch env opts roomId method args = ([], handleError message code)
      /\ (code = 403 \/ code = 404 \/ code = 500))
  \/ (exists c,
         dispatch env opts roomId method args = call_remote env c send_json
         /\ call_roomId c = roomId /\ call_args c <> None).
Proof.
  unfold dispatch, unavailable.
  destruct method as [m|]; [|left; eauto 6].
  destruct (String.eqb m "disconnect" && _); [left; eauto 6|].
  destruct (String.eqb m "_sendMessageToClient" && _); [left; eauto 6|].
  destruct (String.prefix "customAction:" m).
  - destruct (find_handler _ _); [right | left; eauto 6].
    eexists. split; [reflexivity|]. split; [reflexivity | discriminate].
  - destruct (String.prefix "customClientAction:" m).
    + destruct (match nth_error _ 0 with Some _ => _ | None => _ end);
        [|left; eauto 6].
      destruct (spread args); [left; eauto 6 | right].
      eexists. split; [reflexivity|]. split; [reflexivity | discriminate].
    + right. eexists. split; [reflexivity|].
      split; [reflexivity | discriminate].
Qed.

(** X22. What GET /room/call never does.  It makes at most one remote
    call, always to the room named in the request and always with
    arguments; a response it sends has status 200, 403, 404 or 500; a 200
    always carries the answer of a remote call; and a 403 or a 404 is
    sent without any call. *)
Theorem callHandler_calls_and_statuses :
  forall (env : Env) (opts : MonitorOptions.t) (q : CallQuery.t),
    (List.length (fst (callHandler env opts q)) <= 1)%nat
    /\ (forall c, In c (fst (callHandler env opts q)) ->
                  call_roomId c = CallQuery.roomId q /\ call_args c <> None)
    /\ (forall code, has_status (snd (callHandler env opts q)) code ->
                     code = 200 \/ code = 403 \/ code = 404 \/ code = 500)
    /\ (has_status (snd (callHandler env opts q)) 200 ->
        exists c data,
          fst (callHandler env opts q) = [c]
          /\ remoteRoomCall env c = Some data
          /\ snd (callHandler env opts q)
             = Sent {| status := 200; body := JsonBody data |})
    /\ (has_status (snd (callHandler env opts q)) 403
        \/ has_status (snd (callHandler env opts q)) 404 ->
        fst (callHandler env opts q) = []).
Proof.
  intros env opts q. unfold callHandler.
  destruct (JSON_parse env (call_args_text q)) as [args|].
  - destruct (dispatch_shape env opts (CallQuery.roomId q) (CallQuery.method q)
                args) as [(message & code & -> & Hcode) | (c & -> & Hroom & Hargs)].
    + cbn [fst snd]. split; [simpl; lia|]. split; [intros c []|].
      split; [|split].
      * intros code' H. apply has_status_handleError in H. lia.
      * intros H. apply has_status_handleError in H. lia.
      * reflexivity.
    + unfold call_remote.
      destruct (remoteRoomCall env c) as [data|] eqn:E; cbn [fst snd];
        (split; [simpl; lia|]);
        (split; [now intros c' [<-|[]]|]);
        (split; [|split]).
      * intros code H. apply has_status_send_json in H. lia.
      * intros _. now exists c, data.
      * intros [H|H]; apply has_status_send_json in H; lia.
      * intros code H. apply has_status_unavailable in H. lia.
      * intros H. apply has_status_unavailable in H. lia.
      * intros [H|H]; apply has_status_unavailable in H; lia.
  - cbn [fst snd]. split; [simpl; lia|]. split; [intros c []|].
    split; [|split].
    + intros code H. now apply has_status_rejected in H.
    + intros H. now apply has_status_rejected in H.
    + reflexivity.
Qed.

Lemma callHandler_calls_and_statuses_witness :
  fst (callHandler sample_env strict_opts (call_query "a" "disconnect" None))
  = [].
Proof.
  destruct (callHandler_calls_and_statuses sample_env strict_opts
              (call_query "a" "disconnect" None)) as (_ & _ & _ & _ & Hnone).
  apply Hnone. left. eexists. split; reflexivity.
Defined.

(* ================================================================== *)
(** ** The merge of the frontend configuration *)

Module ConfigFacts.

Import Config.

Lemma obj_get_missing (es : Obj) (k : string) :
  has_key es k = false -> obj_get es k = JUndefined.
Proof.
  induction es as [|[k' v] es IH]; [reflexivity|].
  unfold has_key. simpl. intros H. apply orb_false_iff in H.
  destruct H as [Hk Hr]. rewrite Hk. now apply IH.
Qed.

Lemma assign_get (src : Obj) (k : string) (es : Obj) :
  forall target,
    obj_get
      (fold_left (fun acc kv => obj_set acc (fst kv) (obj_get src (fst kv)))
         es target) k
    = if has_key es k then obj_get src k else obj_get target k.
Proof.
  induction es as [|[k' v] es IH]; intros target; [reflexivity|].
  cbn [fold_left fst]. rewrite IH. unfold has_key. cbn [existsb fst].
  fold (has_key es k).
  destruct (has_key es k); [now rewrite orb_true_r|].
  rewrite orb_false_r. destruct (String.eqb k' k) eqn:E.
  - apply String.eqb_eq in E. subst k'. apply obj_get_set_same.
  - now apply obj_get_set_other.
Qed.

Lemma spread_into_get (target : Obj) (src : JsValue) (k : string) :
  obj_get (spread_into target src) k
  = match own src k with
    | Some v => v
    | None => obj_get target k
    end.
Proof.
  unfold spread_into, own. destruct (entries src) as [e|es]; [reflexivity|].
  rewrite assign_get. now destruct (has_key es k).
Qed.

Lemma set_sections_get (f : string -> JsValue) (k : string) (names : list string) :
  forall config,
    obj_get (fold_left (fun acc name => obj_set acc name (f name)) names config) k
    = if existsb (String.eqb k) names then f k else obj_get config k.
Proof.
  induction names as [|n names IH]; intros config; [reflexivity|].
  cbn [fold_left existsb]. rewrite IH.
  destruct (existsb (String.eqb k) names); [now rewrite orb_true_r|].
  rewrite orb_false_r. destruct (String.eqb k n) eqn:E.
  - apply String.eqb_eq in E. subst n. apply obj_get_set_same.
  - apply obj_get_set_other. now rewrite String.eqb_sym.
Qed.

End ConfigFacts.

(** X23. The sections of the frontend configuration are merged key by
    key.  Each of theme, layout, roomList, roomInspect, access and
    realtime is an object in the result of [getConfig], whatever the
    global variable holds; a key of it has the value the global section
    gives it, and the default value when the global section does not have
    the key (or is absent, null or not an object). *)
Theorem getConfig_sections :
  forall (global : JsValue) (name k : string),
    In name Config.sections ->
    exists o,
      obj_get (Config.getConfig global) name = JObj o
      /\ obj_get o k
         = match Config.own (opt_get (or_else global (JObj [])) name) k with
           | Some v => v
           | None => opt_get (obj_get Config.defaultConfig name) k
           end.
Proof.
  intros global name k Hin. unfold Config.getConfig.
  rewrite ConfigFacts.set_sections_get.
  assert (E : existsb (String.eqb name) Config.sections = true).
  { apply existsb_exists. exists name. split; [assumption|].
    apply String.eqb_refl. }
  rewrite E. unfold Config.merged_section. eexists. split; [reflexivity|].
  rewrite !ConfigFacts.spread_into_get.
  destruct (Config.own (opt_get (or_else global (JObj [])) name) k);
    [reflexivity|].
  simpl in Hin.
  destruct Hin as [<-|[<-|[<-|[<-|[<-|[<-|[]]]]]]];
    cbn [Config.defaultConfig obj_get String.eqb Ascii.eqb Bool.eqb];
    unfold Config.own, opt_get; cbn [entries get];
    (destruct (Config.has_key _ k) eqn:Hk;
     [reflexivity | now rewrite ConfigFacts.obj_get_missing]).
Qed.

Lemma getConfig_sections_witness :
  let global :=
    JObj [ ("access", JObj [("allowStateModification", JBool true)]);
           ("theme", JNull) ] in
  (exists access,
     obj_get (Config.getConfig global) "access" = JObj access
     /\ obj_get access "allowStateModification" = JBool true)
  /\ (exists access,
        obj_get (Config.getConfig global) "access" = JObj access
        /\ obj_get access "allowRoomDisposal" = JBool true)
  /\ (exists theme,
        obj_get (Config.getConfig global) "theme" = JObj theme
        /\ obj_get theme "mode" = JStr "system").
Proof.
  intros global. split; [|split].
  - apply (getConfig_sections global "access" "allowStateModification").
    simpl; tauto.
  - apply (getConfig_sections global "access" "allowRoomDisposal").
    simpl; tauto.
  - apply (getConfig_sections global "theme" "mode").
    simpl; tauto.
Defined.

(** X24. Outside the six sections the merge is shallow: a key such as
    [apiPrefix] or [actions] has the value of the global variable when
    that has the key, whole and as given, and the default otherwise. *)
Theorem getConfig_shallow :
  forall (global : JsValue) (k : string),
    ~ In k Config.sections ->
    obj_get (Config.getConfig global) k
    = match Config.own (or_else global (JObj [])) k with
      | Some v => v
      | None => obj_get Config.defaultConfig k
      end.
Proof.
  intros global k Hk. unfold Config.getConfig.
  rewrite ConfigFacts.set_sections_get.
  assert (E : existsb (String.eqb k) Config.sections = false).
  { destruct (existsb (String.eqb k) Config.sections) eqn:F; [|reflexivity].
    apply existsb_exists in F. destruct F as (n & Hn & Heq).
    apply String.eqb_eq in Heq. subst n. contradiction. }
  rewrite E, !ConfigFacts.spread_into_get.
  destruct (Config.own (or_else global (JObj [])) k); [reflexivity|].
  unfold Config.own. cbn [entries].
  destruct (Config.has_key Config.defaultConfig k) eqn:H; [reflexivity|].
  now rewrite (ConfigFacts.obj_get_missing Config.defaultConfig k H).
Qed.

Lemma getConfig_shallow_witness :
  obj_get (Config.getConfig JUndefined) "apiPrefix" = JStr "/api"
  /\ obj_get (Config.getConfig (JObj [("apiPrefix", JStr "/m")])) "apiPrefix"
     = JStr "/m"
  /\ obj_get (Config.getConfig (JObj [("apiPrefix", JStr "/m")])) "actions"
     = JUndefined.
Proof.
  assert (Hk : forall k, k = "apiPrefix" \/ k = "actions" ->
                         ~ In k Config.sections).
  { intros k [-> | ->] H; simpl in H;
      repeat (destruct H as [H|H]; [discriminate|]); exact H. }
  split; [|split].
  - rewrite getConfig_shallow by (apply Hk; now left). reflexivity.
  - rewrite getConfig_shallow by (apply Hk; now left). reflexivity.
  - rewrite getConfig_shallow by (apply Hk; now right). reflexivity.
Defined.
